(** * Crystallographic symmetry engine of gemmi (symmetry.hpp)

    A shallow embedding of the operation algebra ([Op]), the coordinate
    triplet grammar, the Hall-symbol interpreter, the group closure
    (Dimino's algorithm), the space-group table with its lookups and the
    reciprocal-space ASU checker, followed by the properties established
    for them.

    Conventions of the embedding.
    - A C++ [int] is a mathematical integer ([Z]).  Signed overflow is
      undefined in C++, so the model describes the executions without
      overflow; the narrowing conversion [long -> int], which is defined
      modulo 2^32, is written out ([to_int]).  [/] and [%] on [int] are the
      truncating [Z.quot] and [Z.rem].
    - A [const char*] into a NUL-terminated buffer is the suffix that starts
      at the pointer ([string]); reading the terminator gives [NUL].
    - [fail(msg)] (a thrown [std::runtime_error]) is [Fail msg]; undefined
      behaviour (an out-of-bounds access) is [Undefined]; the unbounded
      loops of the source run on fuel and report [OutOfFuel] when it is
      exhausted, which the theorems show never to happen with the fuel
      that the top-level functions supply. *)

From Stdlib Require Import ZArith List String Ascii Bool Lia.
From Stdlib Require Import DecimalString.
Import ListNotations.

Local Open Scope string_scope.
Local Open Scope list_scope.
Local Open Scope Z_scope.

Infix "+++" := String.append (at level 60, right associativity).

(** ** Outcomes of fallible code *)

Inductive result (A : Type) : Type :=
| Ok (a : A)
| Fail (msg : string)
| Undefined
| OutOfFuel.

Arguments Ok {A} a.
Arguments Fail {A} msg.
Arguments Undefined {A}.
Arguments OutOfFuel {A}.

Definition bind {A B : Type} (m : result A) (k : A -> result B) : result B :=
  match m with
  | Ok a => k a
  | Fail msg => Fail msg
  | Undefined => Undefined
  | OutOfFuel => OutOfFuel
  end.

Notation "x <- m ;; k" := (bind m (fun x => k))
  (at level 61, m at next level, right associativity).
Notation "' p <- m ;; k" := (bind m (fun x => match x with p => k end))
  (at level 61, p pattern, m at next level, right associativity).

Definition is_ok {A : Type} (m : result A) : bool :=
  match m with Ok _ => true | _ => false end.

(** ** Fixed-size arrays: [std::array<T, 3>] *)

Record array3 (A : Type) : Type := mk3 { at0 : A; at1 : A; at2 : A }.

Arguments mk3 {A} _ _ _.
Arguments at0 {A} _.
Arguments at1 {A} _.
Arguments at2 {A} _.

Definition nth3 {A : Type} (a : array3 A) (i : nat) : A :=
  match i with
  | O => at0 a
  | S O => at1 a
  | _ => at2 a
  end.

Definition build3 {A : Type} (f : nat -> A) : array3 A :=
  mk3 (f 0%nat) (f 1%nat) (f 2%nat).

Definition map3 {A B : Type} (f : A -> B) (a : array3 A) : array3 B :=
  mk3 (f (at0 a)) (f (at1 a)) (f (at2 a)).

Definition set3 {A : Type} (a : array3 A) (i : nat) (x : A) : array3 A :=
  match i with
  | O => mk3 x (at1 a) (at2 a)
  | S O => mk3 (at0 a) x (at2 a)
  | _ => mk3 (at0 a) (at1 a) x
  end.

Definition list3 {A : Type} (a : array3 A) : list A := [at0 a; at1 a; at2 a].

(** ** Op: a symmetry operation *)

Definition DEN : Z := 24.

Definition Tran : Type := array3 Z.
Definition Rot : Type := array3 (array3 Z).

Record Op : Type := mkOp { rot : Rot; tran : Tran }.

Definition mkRot (a b c d e f g h i : Z) : Rot :=
  mk3 (mk3 a b c) (mk3 d e f) (mk3 g h i).

Definition rc (r : Rot) (i j : nat) : Z := nth3 (nth3 r i) j.

Arguments nth3 {A} a i%_nat.
Arguments set3 {A} a i%_nat x.
Arguments rc r (i j)%_nat.

Definition tran_eqb (a b : Tran) : bool :=
  (at0 a =? at0 b) && (at1 a =? at1 b) && (at2 a =? at2 b).

Definition rot_eqb (a b : Rot) : bool :=
  tran_eqb (at0 a) (at0 b) && tran_eqb (at1 a) (at1 b) && tran_eqb (at2 a) (at2 b).

(** [operator==] on [Op]. *)
Definition op_eqb (a b : Op) : bool :=
  rot_eqb (rot a) (rot b) && tran_eqb (tran a) (tran b).

(** One component of [Op::wrap]. *)
Definition wrap_coord (t : Z) : Z :=
  if t >=? DEN then Z.rem t DEN
  else if t <? 0 then Z.rem (t + 1) DEN + DEN - 1
  else t.

Definition wrap (op : Op) : Op :=
  mkOp (rot op) (map3 wrap_coord (tran op)).

Definition translate (op : Op) (a : Tran) : Op :=
  mkOp (rot op) (build3 (fun i => nth3 (tran op) i + nth3 a i)).

Definition translated (op : Op) (a : Tran) : Op := translate op a.

Definition add_centering (op : Op) (a : Tran) : Op := wrap (translated op a).

Definition negated_rot (op : Op) : Rot := map3 (map3 Z.opp) (rot op).

Definition negated (op : Op) : Op :=
  mkOp (negated_rot op) (map3 Z.opp (tran op)).

Definition det_rot (op : Op) : Z :=
  let r := rot op in
    rc r 0 0 * (rc r 1 1 * rc r 2 2 - rc r 1 2 * rc r 2 1)
  - rc r 0 1 * (rc r 1 0 * rc r 2 2 - rc r 1 2 * rc r 2 0)
  + rc r 0 2 * (rc r 1 0 * rc r 2 1 - rc r 1 1 * rc r 2 0).

Definition combine (a b : Op) : Op :=
  let ra := rot a in
  let rb := rot b in
  mkOp
    (build3 (fun i => build3 (fun j =>
       Z.quot (rc ra i 0 * rc rb 0 j + rc ra i 1 * rc rb 1 j + rc ra i 2 * rc rb 2 j)
              DEN)))
    (build3 (fun i =>
       Z.quot (nth3 (tran a) i * DEN
               + rc ra i 0 * nth3 (tran b) 0
               + rc ra i 1 * nth3 (tran b) 1
               + rc ra i 2 * nth3 (tran b) 2)
              DEN)).

Definition Miller : Type := array3 Z.

(** [Op::apply_to_hkl], which reads the rotation part only. *)
Definition hkl_image (r : Rot) (hkl : Miller) : Miller :=
  build3 (fun i =>
    Z.quot (rc r 0 i * nth3 hkl 0 + rc r 1 i * nth3 hkl 1 + rc r 2 i * nth3 hkl 2)
           DEN).

Definition apply_to_hkl (op : Op) (hkl : Miller) : Miller := hkl_image (rot op) hkl.

Definition identity : Op :=
  mkOp (mkRot DEN 0 0  0 DEN 0  0 0 DEN) (mk3 0 0 0).

(** [operator*]: composition followed by [wrap]. *)
Definition op_mul (a b : Op) : Op := wrap (combine a b).

(** [operator<] on [Op]: [std::tie(rot, tran)] compared lexicographically. *)
Definition op_key (a : Op) : list Z :=
  list3 (at0 (rot a)) ++ list3 (at1 (rot a)) ++ list3 (at2 (rot a)) ++ list3 (tran a).

Fixpoint lex_ltb (a b : list Z) : bool :=
  match a, b with
  | x :: a', y :: b' => if x <? y then true else if y <? x then false else lex_ltb a' b'
  | [], _ :: _ => true
  | _, [] => false
  end.

Definition op_ltb (a b : Op) : bool := lex_ltb (op_key a) (op_key b).

(** ** Characters and C strings *)

Definition NUL : ascii := "000"%char.
Definition TAB : ascii := "009"%char.

(** [*p] for a pointer into a NUL-terminated buffer. *)
Definition deref (p : string) : ascii :=
  match p with
  | EmptyString => NUL
  | String c _ => c
  end.

(** [p + 1].  On the defined paths of the source it is not taken at the
    terminator; the paths that do take it there are [Undefined] below. *)
Definition next (p : string) : string :=
  match p with
  | EmptyString => EmptyString
  | String _ p' => p'
  end.

(** The character code.  The source compares [char]s with ASCII constants
    only, and each of its range tests has the same outcome for a byte above
    127 whether [char] is signed or not. *)
Definition code (c : ascii) : Z := Z.of_N (N_of_ascii c).

Definition char_eqb (a b : ascii) : bool := Ascii.eqb a b.

Definition is_blank (c : ascii) : bool :=
  char_eqb c " " || char_eqb c TAB || char_eqb c "_".

(** [impl::skip_blank] of symmetry.hpp: ['_'] can be used as space. *)
Fixpoint skip_blank (p : string) : string :=
  match p with
  | String c p' => if is_blank c then skip_blank p' else p
  | EmptyString => p
  end.

Definition is_digit (c : ascii) : bool := (48 <=? code c) && (code c <=? 57).

(** [isspace] in the C locale. *)
Definition isspace (c : ascii) : bool := (code c =? 32) || ((9 <=? code c) && (code c <=? 13)).

Fixpoint skip_space (p : string) : string :=
  match p with
  | String c p' => if isspace c then skip_space p' else p
  | EmptyString => p
  end.

Fixpoint read_digits (acc : Z) (p : string) : Z * string :=
  match p with
  | String c p' =>
      if is_digit c then read_digits (10 * acc + (code c - 48)) p' else (acc, p)
  | EmptyString => (acc, p)
  end.

Definition LONG_MAX : Z := 2 ^ 63 - 1.
Definition LONG_MIN : Z := - 2 ^ 63.

(** [std::strtol(nptr, &endptr, 10)] with a 64-bit [long]: the value, clamped
    on overflow, and [endptr]; without digits the value is 0 and [endptr]
    is [nptr]. *)
Definition strtol (nptr : string) : Z * string :=
  let s1 := skip_space nptr in
  let '(neg, s2) :=
    if char_eqb (deref s1) "-" then (true, next s1)
    else if char_eqb (deref s1) "+" then (false, next s1)
    else (false, s1) in
  if is_digit (deref s2) then
    let '(v, endptr) := read_digits 0 s2 in
    (Z.max LONG_MIN (Z.min LONG_MAX (if neg then - v else v)), endptr)
  else (0, nptr).

(** Conversion of a [long] to [int] (modulo 2^32). *)
Definition to_int (z : Z) : Z := (z + 2 ^ 31) mod 2 ^ 32 - 2 ^ 31.

(** [std::to_string(int)]. *)
Definition to_string (n : Z) : string := NilZero.string_of_int (Z.to_int n).

Definition str1 (c : ascii) : string := String c EmptyString.

(** [memchr(set, c, strlen(set)) != nullptr]. *)
Fixpoint memchr (set : string) (c : ascii) : bool :=
  match set with
  | String d set' => char_eqb d c || memchr set' c
  | EmptyString => false
  end.

(** ** Triplet -> Op *)

Record array4 : Type := mk4 { p0 : Z; p1 : Z; p2 : Z; p3 : Z }.

(** The pieces of the body of the [while] loop of [parse_triplet_part];
    [c] is the position after [skip_blank], [s] the whole part (for the
    messages). *)

(** An optional sign, which sets [num]. *)
Definition parse_sign (num : Z) (c : string) : Z * string :=
  if char_eqb (deref c) "+" then (DEN, skip_blank (next c))
  else if char_eqb (deref c) "-" then (- DEN, skip_blank (next c))
  else (num, c).

(** An optional number [n] or [n/d], followed by ['*'] unless it is a
    shift: the new [num], [is_shift] and the position [c]; for a shift [c]
    is already the position after [++c]. *)
Definition parse_number (s : string) (num : Z) (c : string)
  : result (Z * bool * string) :=
  if is_digit (deref c) then
    let '(v, endptr) := strtol c in
    let num := to_int (num * v) in
    ' (num, endptr) <-
      (if char_eqb (deref endptr) "/" then
         let '(d, endptr) := strtol (next endptr) in
         let den := to_int d in
         if (den <? 1) || negb (Z.rem DEN den =? 0)
         then Fail ("Wrong denominator " +++ to_string den +++ " in: " +++ s)
         else Ok (Z.quot num den, endptr)
       else Ok (num, endptr)) ;;
    if char_eqb (deref endptr) "*"
    then Ok (num, false, skip_blank (next endptr))
    else Ok (num, true, endptr)
  else Ok (num, false, c).

(** The addition of [num] to the shift or to the column of the axis letter
    at [c], and the position after [++c]. *)
Definition add_term (s : string) (r : array4) (num : Z) (is_shift : bool) (c : string)
  : result (array4 * string) :=
  if is_shift then Ok (mk4 (p0 r) (p1 r) (p2 r) (p3 r + num), c)
  else if memchr "xXhHaA" (deref c) then Ok (mk4 (p0 r + num) (p1 r) (p2 r) (p3 r), next c)
  else if memchr "yYkKbB" (deref c) then Ok (mk4 (p0 r) (p1 r + num) (p2 r) (p3 r), next c)
  else if memchr "zZlLcC" (deref c) then Ok (mk4 (p0 r) (p1 r) (p2 r + num) (p3 r), next c)
  else Fail ("unexpected character '" +++ str1 (deref c) +++ "' in: " +++ s).

Definition parse_term (s : string) (r : array4) (num : Z) (c : string)
  : result (array4 * string) :=
  let '(num, c) := parse_sign num c in
  if num =? 0 then Fail ("wrong or unsupported triplet format: " +++ s)
  else
    ' (num, is_shift, c) <- parse_number s num c ;;
    add_term s r num is_shift c.

Fixpoint parse_triplet_loop (fuel : nat) (s : string) (r : array4) (num : Z)
    (c : string) : result array4 :=
  let c := skip_blank c in
  if char_eqb (deref c) NUL then
    if num =? 0 then Ok r else Fail ("trailing sign in: " +++ s)
  else
    match fuel with
    | O => OutOfFuel
    | S fuel' =>
        ' (r, c) <- parse_term s r num c ;;
        parse_triplet_loop fuel' s r 0 c
    end.

Definition parse_triplet_part (s : string) : result array4 :=
  parse_triplet_loop (String.length s) s (mk4 0 0 0 0) DEN s.

Fixpoint count_char (ch : ascii) (s : string) : nat :=
  match s with
  | String c s' => ((if char_eqb c ch then 1 else 0) + count_char ch s')%nat
  | EmptyString => O
  end.

(** [s.substr(0, s.find(ch))] and [s.substr(s.find(ch) + 1)], for an [s]
    that contains [ch]. *)
Fixpoint split_at (ch : ascii) (s : string) : string * string :=
  match s with
  | String c s' =>
      if char_eqb c ch then (EmptyString, s')
      else let '(a, b) := split_at ch s' in (String c a, b)
  | EmptyString => (EmptyString, EmptyString)
  end.

Definition parse_triplet (s : string) : result Op :=
  if negb (Nat.eqb (count_char "," s) 2) then
    Fail "expected exactly two commas in triplet"
  else
    let '(sa, rest) := split_at "," s in
    let '(sb, sc) := split_at "," rest in
    a <- parse_triplet_part sa ;;
    b <- parse_triplet_part sb ;;
    c <- parse_triplet_part sc ;;
    Ok (mkOp (mkRot (p0 a) (p1 a) (p2 a) (p0 b) (p1 b) (p2 b) (p0 c) (p1 c) (p2 c))
             (mk3 (p3 a) (p3 b) (p3 c))).

(** ** Op -> triplet *)

Definition digit_char (n : Z) : ascii := ascii_of_N (Z.to_N (48 + n)).

Definition append_small_number (s : string) (n : Z) : string :=
  if (n <? 0) || (n >=? 100) then s +++ to_string n
  else if n <? 10 then s +++ str1 (digit_char n)
  else
    let tens := Z.quot n 10 in
    s +++ str1 (digit_char tens) +++ str1 (digit_char (n - 10 * tens)).

Definition append_sign_of (s : string) (n : Z) : string :=
  if n <? 0 then s +++ "-"
  else if negb (String.eqb s "") then s +++ "+"
  else s.

(** One round of the halving loop of [append_op_fraction]. *)
Definition halve (wd : Z * Z) : Z * Z :=
  let '(w, denom) := wd in
  if Z.rem w 2 =? 0 then (Z.quot w 2, denom) else (w, denom * 2).

(** Append [w/DEN] reduced to the lowest terms. *)
Definition append_op_fraction (s : string) (w : Z) : string :=
  let '(w, denom) := halve (halve (halve (w, 1))) in
  let '(w, denom) := if Z.rem w 3 =? 0 then (Z.quot w 3, denom) else (w, denom * 3) in
  let s := append_small_number s w in
  if negb (denom =? 1) then append_small_number (s +++ "/") denom else s.

Definition append_axis (style : ascii) (i : Z) (s : string) (v : Z) : string :=
  if negb (v =? 0) then
    let s := append_sign_of s v in
    let a := Z.abs v in
    let s := if negb (a =? DEN) then append_op_fraction s a +++ "*" else s in
    s +++ str1 (ascii_of_N (Z.to_N (code style + i)))
  else s.

Definition make_triplet_part (x y z w : Z) (style : ascii) : string :=
  let s := append_axis style 0 "" x in
  let s := append_axis style 1 s y in
  let s := append_axis style 2 s z in
  if negb (w =? 0) then append_op_fraction (append_sign_of s w) (Z.abs w) else s.

Definition triplet (op : Op) : string :=
  let r := rot op in
  let t := tran op in
  make_triplet_part (rc r 0 0) (rc r 0 1) (rc r 0 2) (nth3 t 0) "x" +++ "," +++
  make_triplet_part (rc r 1 0) (rc r 1 1) (rc r 1 2) (nth3 t 1) "x" +++ "," +++
  make_triplet_part (rc r 2 0) (rc r 2 1) (rc r 2 2) (nth3 t 2) "x".

(** ** Inversion *)

Definition inverse (op : Op) : result Op :=
  let detr := det_rot op in
  if detr =? 0 then
    Fail ("cannot invert matrix: " +++ triplet (mkOp (rot op) (mk3 0 0 0)))
  else
    let d2 := DEN * DEN in
    let r := rot op in
    let t := tran op in
    let inv_rot := mkRot
      (Z.quot (d2 * (rc r 1 1 * rc r 2 2 - rc r 2 1 * rc r 1 2)) detr)
      (Z.quot (d2 * (rc r 0 2 * rc r 2 1 - rc r 0 1 * rc r 2 2)) detr)
      (Z.quot (d2 * (rc r 0 1 * rc r 1 2 - rc r 0 2 * rc r 1 1)) detr)
      (Z.quot (d2 * (rc r 1 2 * rc r 2 0 - rc r 1 0 * rc r 2 2)) detr)
      (Z.quot (d2 * (rc r 0 0 * rc r 2 2 - rc r 0 2 * rc r 2 0)) detr)
      (Z.quot (d2 * (rc r 1 0 * rc r 0 2 - rc r 0 0 * rc r 1 2)) detr)
      (Z.quot (d2 * (rc r 1 0 * rc r 2 1 - rc r 2 0 * rc r 1 1)) detr)
      (Z.quot (d2 * (rc r 2 0 * rc r 0 1 - rc r 0 0 * rc r 2 1)) detr)
      (Z.quot (d2 * (rc r 0 0 * rc r 1 1 - rc r 1 0 * rc r 0 1)) detr) in
    Ok (mkOp inv_rot
          (build3 (fun i =>
             Z.quot (- nth3 t 0 * rc inv_rot i 0
                     - nth3 t 1 * rc inv_rot i 1
                     - nth3 t 2 * rc inv_rot i 2) DEN))).

(** ** Groups of operations *)

(** [lattice_symbol & ~0x20]. *)
Definition clear_bit5 (c : ascii) : ascii :=
  match c with
  | Ascii b0 b1 b2 b3 b4 _ b6 b7 => Ascii b0 b1 b2 b3 b4 false b6 b7
  end.

Definition centring_vectors (lattice_symbol : ascii) : result (list Tran) :=
  let h := Z.quot DEN 2 in
  let t := Z.quot DEN 3 in
  let d := 2 * t in
  let o := mk3 0 0 0 in
  match clear_bit5 lattice_symbol with
  | "P"%char => Ok [o]
  | "A"%char => Ok [o; mk3 0 h h]
  | "B"%char => Ok [o; mk3 h 0 h]
  | "C"%char => Ok [o; mk3 h h 0]
  | "I"%char => Ok [o; mk3 h h h]
  | "R"%char => Ok [o; mk3 t d d; mk3 d t t]
  | "S"%char => Ok [o; mk3 t t d; mk3 d t d]
  | "T"%char => Ok [o; mk3 t d t; mk3 d t d]
  | "H"%char => Ok [o; mk3 t d 0; mk3 d t 0]
  | "F"%char => Ok [o; mk3 0 h h; mk3 h 0 h; mk3 h h 0]
  | _ => Fail ("not a lattice symbol: " +++ str1 lattice_symbol)
  end.

Record GroupOps : Type := mkGroupOps { sym_ops : list Op; cen_ops : list Tran }.

Definition order (g : GroupOps) : Z :=
  Z.of_nat (List.length (sym_ops g) * List.length (cen_ops g)).

Definition find_by_rotation (ops : list Op) (r : Rot) : option Op :=
  find (fun op => rot_eqb (rot op) r) ops.

Definition is_centric (g : GroupOps) : bool :=
  match find_by_rotation (sym_ops g)
          (mkRot (- DEN) 0 0  0 (- DEN) 0  0 0 (- DEN)) with
  | Some _ => true
  | None => false
  end.

(** The supercell loop of [change_basis]: [i], [j], [k] below [idet], the
    centering vectors innermost. *)
Definition supercell_cen_ops (idet : Z) (cen : list Tran) : list Tran :=
  let range := map Z.of_nat (seq 0 (Z.to_nat idet)) in
  flat_map (fun i =>
    flat_map (fun j =>
      flat_map (fun k =>
        map (fun c => mk3 (i * DEN + nth3 c 0) (j * DEN + nth3 c 1) (k * DEN + nth3 c 2))
            cen) range) range) range.

(** The last loop of [change_basis], for [i] from [n] down to 1: erase
    [cen_ops[i]] when it is equal to an earlier vector. *)
Fixpoint remove_redundant (n : nat) (cen : list Tran) : list Tran :=
  match n with
  | O => cen
  | S n' =>
      let cen' :=
        match nth_error cen n with
        | Some ci =>
            if existsb (tran_eqb ci) (firstn n cen)
            then firstn n cen ++ skipn (S n) cen
            else cen
        | None => cen
        end in
      remove_redundant n' cen'
  end.

Definition change_basis (g : GroupOps) (cob : Op) : result GroupOps :=
  match sym_ops g, cen_ops g with
  | [], _ => Ok g
  | _, [] => Ok g
  | s0 :: ss, _ :: _ =>
      inv <- inverse cob ;;
      let conj := fun op => wrap (combine (combine cob op) inv) in
      let sym := s0 :: map conj ss in
      let idet := Z.quot (det_rot inv) (DEN * DEN * DEN) in
      let cen := if 1 <? idet then supercell_cen_ops idet (cen_ops g) else cen_ops g in
      let cen :=
        match cen with
        | [] => []
        | c0 :: cs => c0 :: map (fun tr => tran (conj (mkOp (rot identity) tr))) cs
        end in
      Ok (mkGroupOps sym (remove_redundant (List.length cen - 1) cen))
  end.

(** [std::sort] with [operator<]; the order is total on the 12 integers of
    an [Op], so the sorted sequence is determined by its elements. *)
Fixpoint insert_sorted (x : Op) (l : list Op) : list Op :=
  match l with
  | [] => [x]
  | y :: l' => if op_ltb y x then y :: insert_sorted x l' else x :: l
  end.

Definition sort_ops (l : list Op) : list Op := fold_right insert_sorted [] l.

Definition all_ops_sorted (g : GroupOps) : list Op :=
  sort_ops (flat_map (fun so => map (add_centering so) (cen_ops g)) (sym_ops g)).

Fixpoint ops_eqb (a b : list Op) : bool :=
  match a, b with
  | [], [] => true
  | x :: a', y :: b' => op_eqb x y && ops_eqb a' b'
  | _, _ => false
  end.

Definition is_same_as (g other : GroupOps) : bool :=
  if negb (Nat.eqb (List.length (cen_ops g)) (List.length (cen_ops other)))
     || negb (Nat.eqb (List.length (sym_ops g)) (List.length (sym_ops other)))
  then false
  else ops_eqb (all_ops_sorted g) (all_ops_sorted other).

(** The sequence of [GroupOps::begin() .. end()]: for every centering
    vector, every symmetry operation, translated and wrapped. *)
Definition all_ops (g : GroupOps) : list Op :=
  flat_map (fun c => map (fun s => wrap (translated s c)) (sym_ops g)) (cen_ops g).

(** ** Closure of the generators (Dimino's algorithm) *)

Definition too_large : string := "1000+ elements in the group should not happen".

(** [check_size]: the cap on the size of the group. *)
Definition check_size (ops : list Op) : result unit :=
  if (1023 <? List.length ops)%nat then Fail too_large else Ok tt.

(** The first loop: the powers of [sym_ops[1]]. *)
Fixpoint cyclic_loop (fuel : nat) (s1 g : Op) (ops : list Op) : result (list Op) :=
  if rot_eqb (rot g) (rot identity) then Ok ops
  else
    match fuel with
    | O => OutOfFuel
    | S fuel' =>
        let ops := ops ++ [g] in
        _ <- check_size ops ;;
        cyclic_loop fuel' s1 (op_mul g s1) ops
    end.

(** The body of the loop over [n]: try [gen[n] * coset_repr[j]]. *)
Definition try_generator (init : list Op) (cj : Op) (st : list Op * list Op) (gn : Op)
  : list Op * list Op :=
  let '(ops, coset_repr) := st in
  let sg := op_mul gn cj in
  match find_by_rotation ops sg.(rot) with
  | None => (ops ++ sg :: map (op_mul sg) init, coset_repr ++ [sg])
  | Some _ => st
  end.

(** One pass of the [for (;;)] loop: [j] runs over the coset representatives
    present when the pass starts, [n] over [gen[0..i]]; [init] is
    [sym_ops[1 .. init_size)]. *)
Definition coset_pass (gens init : list Op) (st : list Op * list Op)
  : list Op * list Op :=
  fold_left (fun st cj => fold_left (try_generator init cj) gens st) (snd st) st.

Fixpoint coset_loop (fuel : nat) (gens init : list Op) (st : list Op * list Op)
  : result (list Op) :=
  match fuel with
  | O => OutOfFuel
  | S fuel' =>
      let st' := coset_pass gens init st in
      if Nat.eqb (List.length (snd st)) (List.length (snd st')) then Ok (fst st')
      else
        _ <- check_size (fst st') ;;
        coset_loop fuel' gens init st'
  end.

(** The loop over [i] from 1 to [gen.size() - 1]. *)
Fixpoint generator_loop (fuel : nat) (gen : list Op) (i : nat) (count : nat)
    (ops : list Op) : result (list Op) :=
  match count with
  | O => Ok ops
  | S count' =>
      ops' <- coset_loop fuel (firstn (S i) gen) (skipn 1 ops) (ops, [identity]) ;;
      generator_loop fuel gen (S i) count' ops'
  end.

Definition add_missing_elements_fuel (fuel : nat) (ops : list Op) : result (list Op) :=
  match ops with
  | [] => Fail "oops"
  | s0 :: rest =>
      if negb (op_eqb s0 identity) then Fail "oops"
      else
        match rest with
        | [] => Ok ops
        | s1 :: _ =>
            let gen := rest in
            ops1 <- cyclic_loop fuel s1 (op_mul s1 s1) [s0; s1] ;;
            generator_loop fuel gen 1 (List.length gen - 1) ops1
        end
  end.

(** Every loop of the closure pushes an element per round and checks the
    size against 1023, so 1024 rounds are enough (see the theorems). *)
Definition closure_fuel : nat := 1024.

Definition add_missing_elements (g : GroupOps) : result GroupOps :=
  ops <- add_missing_elements_fuel closure_fuel (sym_ops g) ;;
  Ok (mkGroupOps ops (cen_ops g)).

(** ** Interpreting Hall symbols *)

Definition APOS : ascii := "'"%char.
Definition DQUOTE : ascii := ascii_of_nat 34.

(** Matrices for Nz; the diagonal axes are selected by their character
    codes, as in the source's [switch]. *)
Definition hall_rotation_z (N : Z) : result Rot :=
  let d := DEN in
  if N =? 1 then Ok (mkRot d 0 0  0 d 0  0 0 d)
  else if N =? 2 then Ok (mkRot (- d) 0 0  0 (- d) 0  0 0 d)
  else if N =? 3 then Ok (mkRot 0 (- d) 0  d (- d) 0  0 0 d)
  else if N =? 4 then Ok (mkRot 0 (- d) 0  d 0 0  0 0 d)
  else if N =? 6 then Ok (mkRot d (- d) 0  d 0 0  0 0 d)
  else if N =? code APOS then Ok (mkRot 0 (- d) 0  (- d) 0 0  0 0 (- d))
  else if N =? code DQUOTE then Ok (mkRot 0 d 0  d 0 0  0 0 (- d))
  else if N =? code "*" then Ok (mkRot 0 0 d  d 0 0  0 d 0)
  else Fail "incorrect axis definition".

Definition hall_translation_from_symbol (symbol : ascii) : result Tran :=
  let h := Z.quot DEN 2 in
  let q := Z.quot DEN 4 in
  match symbol with
  | "a"%char => Ok (mk3 h 0 0)
  | "b"%char => Ok (mk3 0 h 0)
  | "c"%char => Ok (mk3 0 0 h)
  | "n"%char => Ok (mk3 h h h)
  | "u"%char => Ok (mk3 q 0 0)
  | "v"%char => Ok (mk3 0 q 0)
  | "w"%char => Ok (mk3 0 0 q)
  | "d"%char => Ok (mk3 q q q)
  | _ => Fail ("unknown symbol: " +++ str1 symbol)
  end.

(** The local variables of [hall_matrix_symbol] that its scanning loop
    updates. *)
Record hall_scan_state : Type := mkScan {
  scan_op : Op;
  fractional_tran : Z;
  principal_axis : ascii;
  diagonal_axis : ascii
}.

Definition hall_scan_char (tok : string) (N : Z) (st : hall_scan_state) (c : ascii)
  : result hall_scan_state :=
  if (code "1" <=? code c) && (code c <=? code "5") then
    if negb (fractional_tran st =? 0) then Fail "two numeric subscripts"
    else Ok (mkScan (scan_op st) (code c - code "0") (principal_axis st) (diagonal_axis st))
  else if char_eqb c APOS || char_eqb c DQUOTE || char_eqb c "*" then
    if negb (N =? (if char_eqb c "*" then 3 else 2)) then Fail ("wrong symbol: " +++ tok)
    else Ok (mkScan (scan_op st) (fractional_tran st) (principal_axis st) c)
  else if char_eqb c "x" || char_eqb c "y" || char_eqb c "z" then
    Ok (mkScan (scan_op st) (fractional_tran st) c (diagonal_axis st))
  else
    t <- hall_translation_from_symbol c ;;
    Ok (mkScan (translate (scan_op st) t) (fractional_tran st)
               (principal_axis st) (diagonal_axis st)).

Fixpoint hall_scan (tok : string) (N : Z) (p : string) (st : hall_scan_state)
  : result hall_scan_state :=
  match p with
  | EmptyString => Ok st
  | String c p' => st' <- hall_scan_char tok N st c ;; hall_scan tok N p' st'
  end.

Definition alter_order (r : Rot) (i j k : nat) : Rot :=
  mkRot (rc r i i) (rc r i j) (rc r i k)
        (rc r j i) (rc r j j) (rc r j k)
        (rc r k i) (rc r k j) (rc r k k).

(** [hall_matrix_symbol(start, end, pos, prev)]; [tok] is the text of
    [start, end), which contains no blank and no terminator, and the result
    carries the new value of [prev].  When [tok] is a lone ["-"], the source
    reads the character at [end], a blank or the terminator, each of which
    is refused as an order just as [NUL] is here. *)
Definition hall_matrix_symbol (tok : string) (pos prev : Z) : result (Op * Z) :=
  let neg := char_eqb (deref tok) "-" in
  let p := if neg then next tok else tok in
  let c := deref p in
  if (code c <? code "1") || char_eqb c "5" || (code "6" <? code c) then
    Fail ("wrong n-fold order notation: " +++ tok)
  else
    let N := code c - code "0" in
    st <- hall_scan tok N (next p) (mkScan identity 0 NUL NUL) ;;
    let no_axis := char_eqb (principal_axis st) NUL && char_eqb (diagonal_axis st) NUL in
    ' (principal, diagonal) <-
      (if no_axis then
         if pos =? 1 then Ok ("z"%char, NUL)
         else if (pos =? 2) && (N =? 2) then
           if (prev =? 2) || (prev =? 4) then Ok ("x"%char, NUL)
           else if (prev =? 3) || (prev =? 6) then Ok (NUL, APOS)
           else Ok (NUL, NUL)
         else if (pos =? 3) && (N =? 3) then Ok (NUL, "*"%char)
         else if negb (N =? 1) then Fail "missing axis"
         else Ok (NUL, NUL)
       else Ok (principal_axis st, diagonal_axis st)) ;;
    r <- hall_rotation_z (if char_eqb diagonal NUL then N else code diagonal) ;;
    let op := mkOp r (tran (scan_op st)) in
    let op := if neg then mkOp (negated_rot op) (tran op) else op in
    let op :=
      if char_eqb principal "x" then mkOp (alter_order (rot op) 2 0 1) (tran op)
      else if char_eqb principal "y" then mkOp (alter_order (rot op) 1 2 0) (tran op)
      else op in
    if negb (fractional_tran st =? 0) then
      let idx := code principal - code "x" in
      if (0 <=? idx) && (idx <? 3) then
        let i := Z.to_nat idx in
        Ok (mkOp (rot op)
                 (set3 (tran op) i (nth3 (tran op) i + Z.quot DEN N * fractional_tran st)),
            N)
      else Undefined
    else Ok (op, N).

(** The text of [p, e) for two positions of one buffer, [e] not before [p]. *)
Definition between (p e : string) : string :=
  String.substring 0 (String.length p - String.length e) p.

(** [strchr(p, ch)] for [ch] other than the terminator. *)
Fixpoint strchr (p : string) (ch : ascii) : option string :=
  match p with
  | EmptyString => None
  | String c p' =>
      if char_eqb c NUL then None
      else if char_eqb c ch then Some p
      else strchr p' ch
  end.

(** [std::string(p)]: the text up to the terminator. *)
Fixpoint c_str (p : string) : string :=
  match p with
  | EmptyString => EmptyString
  | String c p' => if char_eqb c NUL then EmptyString else String c (c_str p')
  end.

(** Parses either the short (0 0 1) or the long notation (x,y,z+1/12). *)
Definition parse_hall_change_of_basis (start end_ : string) : result Op :=
  if memchr (between start end_) "," then parse_triplet (between start end_)
  else
    let '(v0, e0) := strtol start in
    let '(v1, e1) := strtol e0 in
    let '(v2, e2) := strtol e1 in
    let coord := fun v => to_int (Z.rem v 12 * Z.quot DEN 12) in
    if negb (Nat.eqb (String.length e2) (String.length end_)) then
      if (String.length e2 <? String.length end_)%nat then Undefined
      else Fail ("unexpected change-of-basis format: " +++ between e2 end_)
    else Ok (mkOp (rot identity) (mk3 (coord v0) (coord v1) (coord v2))).

(** [find_blank]: the token that starts at [p] and the position of the
    blank or terminator that ends it. *)
Fixpoint find_blank (p : string) : string * string :=
  match p with
  | EmptyString => (EmptyString, p)
  | String c p' =>
      if char_eqb c NUL || is_blank c then (EmptyString, p)
      else let '(tok, rest) := find_blank p' in (String c tok, rest)
  end.

(** The loop of [generators_from_hall] over the matrix symbols. *)
Fixpoint hall_parts (fuel : nat) (part : string) (counter prev : Z) (ops : list Op)
  : result (list Op * string) :=
  if char_eqb (deref part) NUL || char_eqb (deref part) "(" then Ok (ops, part)
  else
    match fuel with
    | O => OutOfFuel
    | S fuel' =>
        let '(tok, space) := find_blank part in
        let counter := counter + 1 in
        ' (ops, prev) <-
          (if negb (char_eqb (deref part) "1")
              || (negb (char_eqb (deref (next part)) " ")
                  && negb (char_eqb (deref (next part)) NUL))
           then
             ' (op, prev) <- hall_matrix_symbol tok counter prev ;;
             Ok (ops ++ [op], prev)
           else Ok (ops, prev)) ;;
        hall_parts fuel' (skip_blank space) counter prev ops
    end.

Definition generators_from_hall (hall : string) : result GroupOps :=
  let hall := skip_blank hall in
  let centrosym := char_eqb (deref hall) "-" in
  let ops := if centrosym then [identity; negated identity] else [identity] in
  let lat := skip_blank (if centrosym then next hall else hall) in
  cen <- centring_vectors (deref lat) ;;
  ' (ops, part) <- hall_parts (String.length lat) (skip_blank (next lat)) 0 0 ops ;;
  let g := mkGroupOps ops cen in
  if char_eqb (deref part) "(" then
    match strchr part ")" with
    | None => Fail ("missing ')': " +++ c_str hall)
    | Some rb =>
        cob <- parse_hall_change_of_basis (next part) rb ;;
        g <- change_basis g cob ;;
        if negb (char_eqb (deref (skip_blank (snd (find_blank (next rb))))) NUL)
        then Fail ("unexpected characters after ')': " +++ c_str hall)
        else Ok g
    end
  else Ok g.

Definition symops_from_hall (hall : string) : result GroupOps :=
  g <- generators_from_hall hall ;;
  add_missing_elements g.

(** ** The list of crystallographic space groups *)

Definition basisops : list string := [
    "x,y,z";
    "z,x,y";
    "y,z,x";
    "z,y,-x";
    "x,y,-x+z";
    "-x,z,y";
    "-x+z,x,y";
    "y,-x,z";
    "y,-x+z,x";
    "x-z,y,z";
    "z,x-z,y";
    "y,z,x-z";
    "z,y,-x+z";
    "x+z,y,-x";
    "x+1/4,y+1/4,z";
    "-x+z,z,y";
    "-x,x+z,y";
    "y,-x+z,z";
    "y,-x,x+z";
    "x+1/4,y-1/4,z";
    "x-1/4,y-1/4,z-1/4";
    "x-1/4,y-1/4,z";
    "z,x-1/4,y-1/4";
    "y-1/4,z,x-1/4";
    "x-1/2,y-1/4,z+1/4";
    "z+1/4,x-1/2,y-1/4";
    "y-1/4,z+1/4,x-1/2";
    "x+1/8,y+1/8,z+1/8";
    "x+1/4,y-1/4,z+1/4";
    "x-1/4,y+1/4,z";
    "x+1/4,y+1/4,z+1/4";
    "x,y+1/4,z+1/8";
    "x-1/4,y+1/4,z+1/4";
    "x-1/4,y+1/4,z-1/4";
    "x-1/2,y+1/4,z+1/8";
    "x-1/2,y+1/4,z-3/8";
    "-y+z,x+z,-x+y+z";
    "x-1/8,y-1/8,z-1/8";
    "x+1/4,y+1/4,-x+z-1/4";
    "x+1/4,y,z";
    "x,y,z+1/4";
    "-x,-1/2*y+1/2*z,1/2*y+1/2*z";
    "-1/2*x+1/2*z,-y,1/2*x+1/2*z";
    "1/2*x+1/2*y,1/2*x-1/2*y,-z";
    "1/2*y+1/2*z,1/2*x+1/2*z,1/2*x+1/2*y";
    "-1/2*x+1/2*y+1/2*z,1/2*x-1/2*y+1/2*z,1/2*x+1/2*y-1/2*z";
    "-1/2*x+z,1/2*x,y";
    "x-1/2*z,y,1/2*z";
    "1/2*x+1/2*y,-1/2*x+1/2*y,z"
  ].

(** [get_basisop]; every index of the table is below 49. *)
Definition get_basisop (basisop_idx : nat) : string := nth basisop_idx basisops "".

Record SpaceGroup : Type := mkSG {
  number : Z;
  ccp4 : Z;
  hm : string;
  ext : ascii;
  qualifier : string;
  hall : string;
  basisop_idx : nat
}.

Definition basisop_str (sg : SpaceGroup) : string := get_basisop (basisop_idx sg).
Definition basisop (sg : SpaceGroup) : result Op := parse_triplet (basisop_str sg).
Definition is_reference_setting (sg : SpaceGroup) : bool := Nat.eqb (basisop_idx sg) 0.
Definition operations (sg : SpaceGroup) : result GroupOps := symops_from_hall (hall sg).

Record SpaceGroupAltName : Type := mkAlt {
  alt_hm : string;
  alt_ext : ascii;
  alt_pos : nat
}.

Definition dq : string := str1 DQUOTE.

Module Tables_.

Definition main : list SpaceGroup := [
    mkSG 1 1 "P 1" NUL "" "P 1" 0;
    mkSG 2 2 "P -1" NUL "" "-P 1" 0;
    mkSG 3 3 "P 1 2 1" NUL "b" "P 2y" 0;
    mkSG 3 1003 "P 1 1 2" NUL "c" "P 2" 1;
    mkSG 3 0 "P 2 1 1" NUL "a" "P 2x" 2;
    mkSG 4 4 "P 1 21 1" NUL "b" "P 2yb" 0;
    mkSG 4 1004 "P 1 1 21" NUL "c" "P 2c" 1;
    mkSG 4 0 "P 21 1 1" NUL "a" "P 2xa" 2;
    mkSG 5 5 "C 1 2 1" NUL "b1" "C 2y" 0;
    mkSG 5 2005 "A 1 2 1" NUL "b2" "A 2y" 3;
    mkSG 5 4005 "I 1 2 1" NUL "b3" "I 2y" 4;
    mkSG 5 0 "A 1 1 2" NUL "c1" "A 2" 1;
    mkSG 5 1005 "B 1 1 2" NUL "c2" "B 2" 5;
    mkSG 5 0 "I 1 1 2" NUL "c3" "I 2" 6;
    mkSG 5 0 "B 2 1 1" NUL "a1" "B 2x" 2;
    mkSG 5 0 "C 2 1 1" NUL "a2" "C 2x" 7;
    mkSG 5 0 "I 2 1 1" NUL "a3" "I 2x" 8;
    mkSG 6 6 "P 1 m 1" NUL "b" "P -2y" 0;
    mkSG 6 1006 "P 1 1 m" NUL "c" "P -2" 1;
    mkSG 6 0 "P m 1 1" NUL "a" "P -2x" 2;
    mkSG 7 7 "P 1 c 1" NUL "b1" "P -2yc" 0;
    mkSG 7 0 "P 1 n 1" NUL "b2" "P -2yac" 9;
    mkSG 7 0 "P 1 a 1" NUL "b3" "P -2ya" 3;
    mkSG 7 0 "P 1 1 a" NUL "c1" "P -2a" 1;
    mkSG 7 0 "P 1 1 n" NUL "c2" "P -2ab" 10;
    mkSG 7 1007 "P 1 1 b" NUL "c3" "P -2b" 5;
    mkSG 7 0 "P b 1 1" NUL "a1" "P -2xb" 2;
    mkSG 7 0 "P n 1 1" NUL "a2" "P -2xbc" 11;
    mkSG 7 0 "P c 1 1" NUL "a3" "P -2xc" 7;
    mkSG 8 8 "C 1 m 1" NUL "b1" "C -2y" 0;
    mkSG 8 0 "A 1 m 1" NUL "b2" "A -2y" 3;
    mkSG 8 0 "I 1 m 1" NUL "b3" "I -2y" 4;
    mkSG 8 0 "A 1 1 m" NUL "c1" "A -2" 1;
    mkSG 8 1008 "B 1 1 m" NUL "c2" "B -2" 5;
    mkSG 8 0 "I 1 1 m" NUL "c3" "I -2" 6;
    mkSG 8 0 "B m 1 1" NUL "a1" "B -2x" 2;
    mkSG 8 0 "C m 1 1" NUL "a2" "C -2x" 7;
    mkSG 8 0 "I m 1 1" NUL "a3" "I -2x" 8;
    mkSG 9 9 "C 1 c 1" NUL "b1" "C -2yc" 0;
    mkSG 9 0 "A 1 n 1" NUL "b2" "A -2yab" 12;
    mkSG 9 0 "I 1 a 1" NUL "b3" "I -2ya" 13;
    mkSG 9 0 "A 1 a 1" NUL "-b1" "A -2ya" 3;
    mkSG 9 0 "C 1 n 1" NUL "-b2" "C -2yac" 14;
    mkSG 9 0 "I 1 c 1" NUL "-b3" "I -2yc" 4;
    mkSG 9 0 "A 1 1 a" NUL "c1" "A -2a" 1;
    mkSG 9 0 "B 1 1 n" NUL "c2" "B -2ab" 15;
    mkSG 9 0 "I 1 1 b" NUL "c3" "I -2b" 16;
    mkSG 9 1009 "B 1 1 b" NUL "-c1" "B -2b" 5;
    mkSG 9 0 "A 1 1 n" NUL "-c2" "A -2ab" 10;
    mkSG 9 0 "I 1 1 a" NUL "-c3" "I -2a" 6;
    mkSG 9 0 "B b 1 1" NUL "a1" "B -2xb" 2;
    mkSG 9 0 "C n 1 1" NUL "a2" "C -2xac" 17;
    mkSG 9 0 "I c 1 1" NUL "a3" "I -2xc" 18;
    mkSG 9 0 "C c 1 1" NUL "-a1" "C -2xc" 7;
    mkSG 9 0 "B n 1 1" NUL "-a2" "B -2xab" 11;
    mkSG 9 0 "I b 1 1" NUL "-a3" "I -2xb" 8;
    mkSG 10 10 "P 1 2/m 1" NUL "b" "-P 2y" 0;
    mkSG 10 1010 "P 1 1 2/m" NUL "c" "-P 2" 1;
    mkSG 10 0 "P 2/m 1 1" NUL "a" "-P 2x" 2;
    mkSG 11 11 "P 1 21/m 1" NUL "b" "-P 2yb" 0;
    mkSG 11 1011 "P 1 1 21/m" NUL "c" "-P 2c" 1;
    mkSG 11 0 "P 21/m 1 1" NUL "a" "-P 2xa" 2;
    mkSG 12 12 "C 1 2/m 1" NUL "b1" "-C 2y" 0;
    mkSG 12 0 "A 1 2/m 1" NUL "b2" "-A 2y" 3;
    mkSG 12 0 "I 1 2/m 1" NUL "b3" "-I 2y" 4;
    mkSG 12 0 "A 1 1 2/m" NUL "c1" "-A 2" 1;
    mkSG 12 1012 "B 1 1 2/m" NUL "c2" "-B 2" 5;
    mkSG 12 0 "I 1 1 2/m" NUL "c3" "-I 2" 6;
    mkSG 12 0 "B 2/m 1 1" NUL "a1" "-B 2x" 2;
    mkSG 12 0 "C 2/m 1 1" NUL "a2" "-C 2x" 7;
    mkSG 12 0 "I 2/m 1 1" NUL "a3" "-I 2x" 8;
    mkSG 13 13 "P 1 2/c 1" NUL "b1" "-P 2yc" 0;
    mkSG 13 0 "P 1 2/n 1" NUL "b2" "-P 2yac" 9;
    mkSG 13 0 "P 1 2/a 1" NUL "b3" "-P 2ya" 3;
    mkSG 13 0 "P 1 1 2/a" NUL "c1" "-P 2a" 1;
    mkSG 13 0 "P 1 1 2/n" NUL "c2" "-P 2ab" 10;
    mkSG 13 1013 "P 1 1 2/b" NUL "c3" "-P 2b" 5;
    mkSG 13 0 "P 2/b 1 1" NUL "a1" "-P 2xb" 2;
    mkSG 13 0 "P 2/n 1 1" NUL "a2" "-P 2xbc" 11;
    mkSG 13 0 "P 2/c 1 1" NUL "a3" "-P 2xc" 7;
    mkSG 14 14 "P 1 21/c 1" NUL "b1" "-P 2ybc" 0;
    mkSG 14 2014 "P 1 21/n 1" NUL "b2" "-P 2yn" 9;
    mkSG 14 3014 "P 1 21/a 1" NUL "b3" "-P 2yab" 3;
    mkSG 14 0 "P 1 1 21/a" NUL "c1" "-P 2ac" 1;
    mkSG 14 0 "P 1 1 21/n" NUL "c2" "-P 2n" 10;
    mkSG 14 1014 "P 1 1 21/b" NUL "c3" "-P 2bc" 5;
    mkSG 14 0 "P 21/b 1 1" NUL "a1" "-P 2xab" 2;
    mkSG 14 0 "P 21/n 1 1" NUL "a2" "-P 2xn" 11;
    mkSG 14 0 "P 21/c 1 1" NUL "a3" "-P 2xac" 7;
    mkSG 15 15 "C 1 2/c 1" NUL "b1" "-C 2yc" 0;
    mkSG 15 0 "A 1 2/n 1" NUL "b2" "-A 2yab" 12;
    mkSG 15 0 "I 1 2/a 1" NUL "b3" "-I 2ya" 13;
    mkSG 15 0 "A 1 2/a 1" NUL "-b1" "-A 2ya" 3;
    mkSG 15 0 "C 1 2/n 1" NUL "-b2" "-C 2yac" 19;
    mkSG 15 0 "I 1 2/c 1" NUL "-b3" "-I 2yc" 4;
    mkSG 15 0 "A 1 1 2/a" NUL "c1" "-A 2a" 1;
    mkSG 15 0 "B 1 1 2/n" NUL "c2" "-B 2ab" 15;
    mkSG 15 0 "I 1 1 2/b" NUL "c3" "-I 2b" 16;
    mkSG 15 1015 "B 1 1 2/b" NUL "-c1" "-B 2b" 5;
    mkSG 15 0 "A 1 1 2/n" NUL "-c2" "-A 2ab" 10;
    mkSG 15 0 "I 1 1 2/a" NUL "-c3" "-I 2a" 6;
    mkSG 15 0 "B 2/b 1 1" NUL "a1" "-B 2xb" 2;
    mkSG 15 0 "C 2/n 1 1" NUL "a2" "-C 2xac" 17;
    mkSG 15 0 "I 2/c 1 1" NUL "a3" "-I 2xc" 18;
    mkSG 15 0 "C 2/c 1 1" NUL "-a1" "-C 2xc" 7;
    mkSG 15 0 "B 2/n 1 1" NUL "-a2" "-B 2xab" 11;
    mkSG 15 0 "I 2/b 1 1" NUL "-a3" "-I 2xb" 8;
    mkSG 16 16 "P 2 2 2" NUL "" "P 2 2" 0;
    mkSG 17 17 "P 2 2 21" NUL "" "P 2c 2" 0;
    mkSG 17 1017 "P 21 2 2" NUL "cab" "P 2a 2a" 1;
    mkSG 17 2017 "P 2 21 2" NUL "bca" "P 2 2b" 2;
    mkSG 18 18 "P 21 21 2" NUL "" "P 2 2ab" 0;
    mkSG 18 3018 "P 2 21 21" NUL "cab" "P 2bc 2" 1;
    mkSG 18 2018 "P 21 2 21" NUL "bca" "P 2ac 2ac" 2;
    mkSG 19 19 "P 21 21 21" NUL "" "P 2ac 2ab" 0;
    mkSG 20 20 "C 2 2 21" NUL "" "C 2c 2" 0;
    mkSG 20 0 "A 21 2 2" NUL "cab" "A 2a 2a" 1;
    mkSG 20 0 "B 2 21 2" NUL "bca" "B 2 2b" 2;
    mkSG 21 21 "C 2 2 2" NUL "" "C 2 2" 0;
    mkSG 21 0 "A 2 2 2" NUL "cab" "A 2 2" 1;
    mkSG 21 0 "B 2 2 2" NUL "bca" "B 2 2" 2;
    mkSG 22 22 "F 2 2 2" NUL "" "F 2 2" 0;
    mkSG 23 23 "I 2 2 2" NUL "" "I 2 2" 0;
    mkSG 24 24 "I 21 21 21" NUL "" "I 2b 2c" 0;
    mkSG 25 25 "P m m 2" NUL "" "P 2 -2" 0;
    mkSG 25 0 "P 2 m m" NUL "cab" "P -2 2" 1;
    mkSG 25 0 "P m 2 m" NUL "bca" "P -2 -2" 2;
    mkSG 26 26 "P m c 21" NUL "" "P 2c -2" 0;
    mkSG 26 0 "P c m 21" NUL "ba-c" "P 2c -2c" 7;
    mkSG 26 0 "P 21 m a" NUL "cab" "P -2a 2a" 1;
    mkSG 26 0 "P 21 a m" NUL "-cba" "P -2 2a" 3;
    mkSG 26 0 "P b 21 m" NUL "bca" "P -2 -2b" 2;
    mkSG 26 0 "P m 21 b" NUL "a-cb" "P -2b -2" 5;
    mkSG 27 27 "P c c 2" NUL "" "P 2 -2c" 0;
    mkSG 27 0 "P 2 a a" NUL "cab" "P -2a 2" 1;
    mkSG 27 0 "P b 2 b" NUL "bca" "P -2b -2b" 2;
    mkSG 28 28 "P m a 2" NUL "" "P 2 -2a" 0;
    mkSG 28 0 "P b m 2" NUL "ba-c" "P 2 -2b" 7;
    mkSG 28 0 "P 2 m b" NUL "cab" "P -2b 2" 1;
    mkSG 28 0 "P 2 c m" NUL "-cba" "P -2c 2" 3;
    mkSG 28 0 "P c 2 m" NUL "bca" "P -2c -2c" 2;
    mkSG 28 0 "P m 2 a" NUL "a-cb" "P -2a -2a" 5;
    mkSG 29 29 "P c a 21" NUL "" "P 2c -2ac" 0;
    mkSG 29 0 "P b c 21" NUL "ba-c" "P 2c -2b" 7;
    mkSG 29 0 "P 21 a b" NUL "cab" "P -2b 2a" 1;
    mkSG 29 0 "P 21 c a" NUL "-cba" "P -2ac 2a" 3;
    mkSG 29 0 "P c 21 b" NUL "bca" "P -2bc -2c" 2;
    mkSG 29 0 "P b 21 a" NUL "a-cb" "P -2a -2ab" 5;
    mkSG 30 30 "P n c 2" NUL "" "P 2 -2bc" 0;
    mkSG 30 0 "P c n 2" NUL "ba-c" "P 2 -2ac" 7;
    mkSG 30 0 "P 2 n a" NUL "cab" "P -2ac 2" 1;
    mkSG 30 0 "P 2 a n" NUL "-cba" "P -2ab 2" 3;
    mkSG 30 0 "P b 2 n" NUL "bca" "P -2ab -2ab" 2;
    mkSG 30 0 "P n 2 b" NUL "a-cb" "P -2bc -2bc" 5;
    mkSG 31 31 "P m n 21" NUL "" "P 2ac -2" 0;
    mkSG 31 0 "P n m 21" NUL "ba-c" "P 2bc -2bc" 7;
    mkSG 31 0 "P 21 m n" NUL "cab" "P -2ab 2ab" 1;
    mkSG 31 0 "P 21 n m" NUL "-cba" "P -2 2ac" 3;
    mkSG 31 0 "P n 21 m" NUL "bca" "P -2 -2bc" 2;
    mkSG 31 0 "P m 21 n" NUL "a-cb" "P -2ab -2" 5;
    mkSG 32 32 "P b a 2" NUL "" "P 2 -2ab" 0;
    mkSG 32 0 "P 2 c b" NUL "cab" "P -2bc 2" 1;
    mkSG 32 0 "P c 2 a" NUL "bca" "P -2ac -2ac" 2;
    mkSG 33 33 "P n a 21" NUL "" "P 2c -2n" 0;
    mkSG 33 0 "P b n 21" NUL "ba-c" "P 2c -2ab" 7;
    mkSG 33 0 "P 21 n b" NUL "cab" "P -2bc 2a" 1;
    mkSG 33 0 "P 21 c n" NUL "-cba" "P -2n 2a" 3;
    mkSG 33 0 "P c 21 n" NUL "bca" "P -2n -2ac" 2;
    mkSG 33 0 "P n 21 a" NUL "a-cb" "P -2ac -2n" 5;
    mkSG 34 34 "P n n 2" NUL "" "P 2 -2n" 0;
    mkSG 34 0 "P 2 n n" NUL "cab" "P -2n 2" 1;
    mkSG 34 0 "P n 2 n" NUL "bca" "P -2n -2n" 2;
    mkSG 35 35 "C m m 2" NUL "" "C 2 -2" 0;
    mkSG 35 0 "A 2 m m" NUL "cab" "A -2 2" 1;
    mkSG 35 0 "B m 2 m" NUL "bca" "B -2 -2" 2;
    mkSG 36 36 "C m c 21" NUL "" "C 2c -2" 0;
    mkSG 36 0 "C c m 21" NUL "ba-c" "C 2c -2c" 7;
    mkSG 36 0 "A 21 m a" NUL "cab" "A -2a 2a" 1;
    mkSG 36 0 "A 21 a m" NUL "-cba" "A -2 2a" 3;
    mkSG 36 0 "B b 21 m" NUL "bca" "B -2 -2b" 2;
    mkSG 36 0 "B m 21 b" NUL "a-cb" "B -2b -2" 5;
    mkSG 37 37 "C c c 2" NUL "" "C 2 -2c" 0;
    mkSG 37 0 "A 2 a a" NUL "cab" "A -2a 2" 1;
    mkSG 37 0 "B b 2 b" NUL "bca" "B -2b -2b" 2;
    mkSG 38 38 "A m m 2" NUL "" "A 2 -2" 0;
    mkSG 38 0 "B m m 2" NUL "ba-c" "B 2 -2" 7;
    mkSG 38 0 "B 2 m m" NUL "cab" "B -2 2" 1;
    mkSG 38 0 "C 2 m m" NUL "-cba" "C -2 2" 3;
    mkSG 38 0 "C m 2 m" NUL "bca" "C -2 -2" 2;
    mkSG 38 0 "A m 2 m" NUL "a-cb" "A -2 -2" 5;
    mkSG 39 39 "A b m 2" NUL "" "A 2 -2b" 0;
    mkSG 39 0 "B m a 2" NUL "ba-c" "B 2 -2a" 7;
    mkSG 39 0 "B 2 c m" NUL "cab" "B -2a 2" 1;
    mkSG 39 0 "C 2 m b" NUL "-cba" "C -2a 2" 3;
    mkSG 39 0 "C m 2 a" NUL "bca" "C -2a -2a" 2;
    mkSG 39 0 "A c 2 m" NUL "a-cb" "A -2b -2b" 5;
    mkSG 40 40 "A m a 2" NUL "" "A 2 -2a" 0;
    mkSG 40 0 "B b m 2" NUL "ba-c" "B 2 -2b" 7;
    mkSG 40 0 "B 2 m b" NUL "cab" "B -2b 2" 1;
    mkSG 40 0 "C 2 c m" NUL "-cba" "C -2c 2" 3;
    mkSG 40 0 "C c 2 m" NUL "bca" "C -2c -2c" 2;
    mkSG 40 0 "A m 2 a" NUL "a-cb" "A -2a -2a" 5;
    mkSG 41 41 "A b a 2" NUL "" "A 2 -2ab" 0;
    mkSG 41 0 "B b a 2" NUL "ba-c" "B 2 -2ab" 7;
    mkSG 41 0 "B 2 c b" NUL "cab" "B -2ab 2" 1;
    mkSG 41 0 "C 2 c b" NUL "-cba" "C -2ac 2" 3;
    mkSG 41 0 "C c 2 a" NUL "bca" "C -2ac -2ac" 2;
    mkSG 41 0 "A c 2 a" NUL "a-cb" "A -2ab -2ab" 5;
    mkSG 42 42 "F m m 2" NUL "" "F 2 -2" 0;
    mkSG 42 0 "F 2 m m" NUL "cab" "F -2 2" 1;
    mkSG 42 0 "F m 2 m" NUL "bca" "F -2 -2" 2;
    mkSG 43 43 "F d d 2" NUL "" "F 2 -2d" 0;
    mkSG 43 0 "F 2 d d" NUL "cab" "F -2d 2" 1;
    mkSG 43 0 "F d 2 d" NUL "bca" "F -2d -2d" 2;
    mkSG 44 44 "I m m 2" NUL "" "I 2 -2" 0;
    mkSG 44 0 "I 2 m m" NUL "cab" "I -2 2" 1;
    mkSG 44 0 "I m 2 m" NUL "bca" "I -2 -2" 2;
    mkSG 45 45 "I b a 2" NUL "" "I 2 -2c" 0;
    mkSG 45 0 "I 2 c b" NUL "cab" "I -2a 2" 1;
    mkSG 45 0 "I c 2 a" NUL "bca" "I -2b -2b" 2;
    mkSG 46 46 "I m a 2" NUL "" "I 2 -2a" 0;
    mkSG 46 0 "I b m 2" NUL "ba-c" "I 2 -2b" 7;
    mkSG 46 0 "I 2 m b" NUL "cab" "I -2b 2" 1;
    mkSG 46 0 "I 2 c m" NUL "-cba" "I -2c 2" 3;
    mkSG 46 0 "I c 2 m" NUL "bca" "I -2c -2c" 2;
    mkSG 46 0 "I m 2 a" NUL "a-cb" "I -2a -2a" 5;
    mkSG 47 47 "P m m m" NUL "" "-P 2 2" 0;
    mkSG 48 48 "P n n n" "1"%char "" "P 2 2 -1n" 20;
    mkSG 48 0 "P n n n" "2"%char "" "-P 2ab 2bc" 0;
    mkSG 49 49 "P c c m" NUL "" "-P 2 2c" 0;
    mkSG 49 0 "P m a a" NUL "cab" "-P 2a 2" 1;
    mkSG 49 0 "P b m b" NUL "bca" "-P 2b 2b" 2;
    mkSG 50 50 "P b a n" "1"%char "" "P 2 2 -1ab" 21;
    mkSG 50 0 "P b a n" "2"%char "" "-P 2ab 2b" 0;
    mkSG 50 0 "P n c b" "1"%char "cab" "P 2 2 -1bc" 22;
    mkSG 50 0 "P n c b" "2"%char "cab" "-P 2b 2bc" 1;
    mkSG 50 0 "P c n a" "1"%char "bca" "P 2 2 -1ac" 23;
    mkSG 50 0 "P c n a" "2"%char "bca" "-P 2a 2c" 2;
    mkSG 51 51 "P m m a" NUL "" "-P 2a 2a" 0;
    mkSG 51 0 "P m m b" NUL "ba-c" "-P 2b 2" 7;
    mkSG 51 0 "P b m m" NUL "cab" "-P 2 2b" 1;
    mkSG 51 0 "P c m m" NUL "-cba" "-P 2c 2c" 3;
    mkSG 51 0 "P m c m" NUL "bca" "-P 2c 2" 2;
    mkSG 51 0 "P m a m" NUL "a-cb" "-P 2 2a" 5;
    mkSG 52 52 "P n n a" NUL "" "-P 2a 2bc" 0;
    mkSG 52 0 "P n n b" NUL "ba-c" "-P 2b 2n" 7;
    mkSG 52 0 "P b n n" NUL "cab" "-P 2n 2b" 1;
    mkSG 52 0 "P c n n" NUL "-cba" "-P 2ab 2c" 3;
    mkSG 52 0 "P n c n" NUL "bca" "-P 2ab 2n" 2;
    mkSG 52 0 "P n a n" NUL "a-cb" "-P 2n 2bc" 5;
    mkSG 53 53 "P m n a" NUL "" "-P 2ac 2" 0;
    mkSG 53 0 "P n m b" NUL "ba-c" "-P 2bc 2bc" 7;
    mkSG 53 0 "P b m n" NUL "cab" "-P 2ab 2ab" 1;
    mkSG 53 0 "P c n m" NUL "-cba" "-P 2 2ac" 3;
    mkSG 53 0 "P n c m" NUL "bca" "-P 2 2bc" 2;
    mkSG 53 0 "P m a n" NUL "a-cb" "-P 2ab 2" 5;
    mkSG 54 54 "P c c a" NUL "" "-P 2a 2ac" 0;
    mkSG 54 0 "P c c b" NUL "ba-c" "-P 2b 2c" 7;
    mkSG 54 0 "P b a a" NUL "cab" "-P 2a 2b" 1;
    mkSG 54 0 "P c a a" NUL "-cba" "-P 2ac 2c" 3;
    mkSG 54 0 "P b c b" NUL "bca" "-P 2bc 2b" 2;
    mkSG 54 0 "P b a b" NUL "a-cb" "-P 2b 2ab" 5;
    mkSG 55 55 "P b a m" NUL "" "-P 2 2ab" 0;
    mkSG 55 0 "P m c b" NUL "cab" "-P 2bc 2" 1;
    mkSG 55 0 "P c m a" NUL "bca" "-P 2ac 2ac" 2;
    mkSG 56 56 "P c c n" NUL "" "-P 2ab 2ac" 0;
    mkSG 56 0 "P n a a" NUL "cab" "-P 2ac 2bc" 1;
    mkSG 56 0 "P b n b" NUL "bca" "-P 2bc 2ab" 2;
    mkSG 57 57 "P b c m" NUL "" "-P 2c 2b" 0;
    mkSG 57 0 "P c a m" NUL "ba-c" "-P 2c 2ac" 7;
    mkSG 57 0 "P m c a" NUL "cab" "-P 2ac 2a" 1;
    mkSG 57 0 "P m a b" NUL "-cba" "-P 2b 2a" 3;
    mkSG 57 0 "P b m a" NUL "bca" "-P 2a 2ab" 2;
    mkSG 57 0 "P c m b" NUL "a-cb" "-P 2bc 2c" 5;
    mkSG 58 58 "P n n m" NUL "" "-P 2 2n" 0;
    mkSG 58 0 "P m n n" NUL "cab" "-P 2n 2" 1;
    mkSG 58 0 "P n m n" NUL "bca" "-P 2n 2n" 2;
    mkSG 59 59 "P m m n" "1"%char "" "P 2 2ab -1ab" 21;
    mkSG 59 1059 "P m m n" "2"%char "" "-P 2ab 2a" 0;
    mkSG 59 0 "P n m m" "1"%char "cab" "P 2bc 2 -1bc" 22;
    mkSG 59 0 "P n m m" "2"%char "cab" "-P 2c 2bc" 1;
    mkSG 59 0 "P m n m" "1"%char "bca" "P 2ac 2ac -1ac" 23;
    mkSG 59 0 "P m n m" "2"%char "bca" "-P 2c 2a" 2;
    mkSG 60 60 "P b c n" NUL "" "-P 2n 2ab" 0;
    mkSG 60 0 "P c a n" NUL "ba-c" "-P 2n 2c" 7;
    mkSG 60 0 "P n c a" NUL "cab" "-P 2a 2n" 1;
    mkSG 60 0 "P n a b" NUL "-cba" "-P 2bc 2n" 3;
    mkSG 60 0 "P b n a" NUL "bca" "-P 2ac 2b" 2;
    mkSG 60 0 "P c n b" NUL "a-cb" "-P 2b 2ac" 5;
    mkSG 61 61 "P b c a" NUL "" "-P 2ac 2ab" 0;
    mkSG 61 0 "P c a b" NUL "ba-c" "-P 2bc 2ac" 3;
    mkSG 62 62 "P n m a" NUL "" "-P 2ac 2n" 0;
    mkSG 62 0 "P m n b" NUL "ba-c" "-P 2bc 2a" 7;
    mkSG 62 0 "P b n m" NUL "cab" "-P 2c 2ab" 1;
    mkSG 62 0 "P c m n" NUL "-cba" "-P 2n 2ac" 3;
    mkSG 62 0 "P m c n" NUL "bca" "-P 2n 2a" 2;
    mkSG 62 0 "P n a m" NUL "a-cb" "-P 2c 2n" 5;
    mkSG 63 63 "C m c m" NUL "" "-C 2c 2" 0;
    mkSG 63 0 "C c m m" NUL "ba-c" "-C 2c 2c" 7;
    mkSG 63 0 "A m m a" NUL "cab" "-A 2a 2a" 1;
    mkSG 63 0 "A m a m" NUL "-cba" "-A 2 2a" 3;
    mkSG 63 0 "B b m m" NUL "bca" "-B 2 2b" 2;
    mkSG 63 0 "B m m b" NUL "a-cb" "-B 2b 2" 5;
    mkSG 64 64 "C m c a" NUL "" "-C 2ac 2" 0;
    mkSG 64 0 "C c m b" NUL "ba-c" "-C 2ac 2ac" 7;
    mkSG 64 0 "A b m a" NUL "cab" "-A 2ab 2ab" 1;
    mkSG 64 0 "A c a m" NUL "-cba" "-A 2 2ab" 3;
    mkSG 64 0 "B b c m" NUL "bca" "-B 2 2ab" 2;
    mkSG 64 0 "B m a b" NUL "a-cb" "-B 2ab 2" 5;
    mkSG 65 65 "C m m m" NUL "" "-C 2 2" 0;
    mkSG 65 0 "A m m m" NUL "cab" "-A 2 2" 1;
    mkSG 65 0 "B m m m" NUL "bca" "-B 2 2" 2;
    mkSG 66 66 "C c c m" NUL "" "-C 2 2c" 0;
    mkSG 66 0 "A m a a" NUL "cab" "-A 2a 2" 1;
    mkSG 66 0 "B b m b" NUL "bca" "-B 2b 2b" 2;
    mkSG 67 67 "C m m a" NUL "" "-C 2a 2" 0;
    mkSG 67 0 "C m m b" NUL "ba-c" "-C 2a 2a" 14;
    mkSG 67 0 "A b m m" NUL "cab" "-A 2b 2b" 1;
    mkSG 67 0 "A c m m" NUL "-cba" "-A 2 2b" 3;
    mkSG 67 0 "B m c m" NUL "bca" "-B 2 2a" 2;
    mkSG 67 0 "B m a m" NUL "a-cb" "-B 2a 2" 5;
    mkSG 68 68 "C c c a" "1"%char "" "C 2 2 -1ac" 24;
    mkSG 68 0 "C c c a" "2"%char "" "-C 2a 2ac" 0;
    mkSG 68 0 "C c c b" "1"%char "ba-c" "C 2 2 -1ac" 24;
    mkSG 68 0 "C c c b" "2"%char "ba-c" "-C 2a 2c" 21;
    mkSG 68 0 "A b a a" "1"%char "cab" "A 2 2 -1ab" 25;
    mkSG 68 0 "A b a a" "2"%char "cab" "-A 2a 2b" 1;
    mkSG 68 0 "A c a a" "1"%char "-cba" "A 2 2 -1ab" 25;
    mkSG 68 0 "A c a a" "2"%char "-cba" "-A 2ab 2b" 3;
    mkSG 68 0 "B b c b" "1"%char "bca" "B 2 2 -1ab" 26;
    mkSG 68 0 "B b c b" "2"%char "bca" "-B 2ab 2b" 2;
    mkSG 68 0 "B b a b" "1"%char "a-cb" "B 2 2 -1ab" 26;
    mkSG 68 0 "B b a b" "2"%char "a-cb" "-B 2b 2ab" 5;
    mkSG 69 69 "F m m m" NUL "" "-F 2 2" 0;
    mkSG 70 70 "F d d d" "1"%char "" "F 2 2 -1d" 27;
    mkSG 70 0 "F d d d" "2"%char "" "-F 2uv 2vw" 0;
    mkSG 71 71 "I m m m" NUL "" "-I 2 2" 0;
    mkSG 72 72 "I b a m" NUL "" "-I 2 2c" 0;
    mkSG 72 0 "I m c b" NUL "cab" "-I 2a 2" 1;
    mkSG 72 0 "I c m a" NUL "bca" "-I 2b 2b" 2;
    mkSG 73 73 "I b c a" NUL "" "-I 2b 2c" 0;
    mkSG 73 0 "I c a b" NUL "ba-c" "-I 2a 2b" 28;
    mkSG 74 74 "I m m a" NUL "" "-I 2b 2" 0;
    mkSG 74 0 "I m m b" NUL "ba-c" "-I 2a 2a" 28;
    mkSG 74 0 "I b m m" NUL "cab" "-I 2c 2c" 1;
    mkSG 74 0 "I c m m" NUL "-cba" "-I 2 2b" 3;
    mkSG 74 0 "I m c m" NUL "bca" "-I 2 2a" 2;
    mkSG 74 0 "I m a m" NUL "a-cb" "-I 2c 2" 5;
    mkSG 75 75 "P 4" NUL "" "P 4" 0;
    mkSG 76 76 "P 41" NUL "" "P 4w" 0;
    mkSG 77 77 "P 42" NUL "" "P 4c" 0;
    mkSG 78 78 "P 43" NUL "" "P 4cw" 0;
    mkSG 79 79 "I 4" NUL "" "I 4" 0;
    mkSG 80 80 "I 41" NUL "" "I 4bw" 0;
    mkSG 81 81 "P -4" NUL "" "P -4" 0;
    mkSG 82 82 "I -4" NUL "" "I -4" 0;
    mkSG 83 83 "P 4/m" NUL "" "-P 4" 0;
    mkSG 84 84 "P 42/m" NUL "" "-P 4c" 0;
    mkSG 85 85 "P 4/n" "1"%char "" "P 4ab -1ab" 29;
    mkSG 85 0 "P 4/n" "2"%char "" "-P 4a" 0;
    mkSG 86 86 "P 42/n" "1"%char "" "P 4n -1n" 30;
    mkSG 86 0 "P 42/n" "2"%char "" "-P 4bc" 0;
    mkSG 87 87 "I 4/m" NUL "" "-I 4" 0;
    mkSG 88 88 "I 41/a" "1"%char "" "I 4bw -1bw" 31;
    mkSG 88 0 "I 41/a" "2"%char "" "-I 4ad" 0;
    mkSG 89 89 "P 4 2 2" NUL "" "P 4 2" 0;
    mkSG 90 90 "P 4 21 2" NUL "" "P 4ab 2ab" 0;
    mkSG 91 91 "P 41 2 2" NUL "" "P 4w 2c" 0;
    mkSG 92 92 "P 41 21 2" NUL "" "P 4abw 2nw" 0;
    mkSG 93 93 "P 42 2 2" NUL "" "P 4c 2" 0;
    mkSG 94 94 "P 42 21 2" NUL "" "P 4n 2n" 0;
    mkSG 95 95 "P 43 2 2" NUL "" "P 4cw 2c" 0;
    mkSG 96 96 "P 43 21 2" NUL "" "P 4nw 2abw" 0;
    mkSG 97 97 "I 4 2 2" NUL "" "I 4 2" 0;
    mkSG 98 98 "I 41 2 2" NUL "" "I 4bw 2bw" 0;
    mkSG 99 99 "P 4 m m" NUL "" "P 4 -2" 0;
    mkSG 100 100 "P 4 b m" NUL "" "P 4 -2ab" 0;
    mkSG 101 101 "P 42 c m" NUL "" "P 4c -2c" 0;
    mkSG 102 102 "P 42 n m" NUL "" "P 4n -2n" 0;
    mkSG 103 103 "P 4 c c" NUL "" "P 4 -2c" 0;
    mkSG 104 104 "P 4 n c" NUL "" "P 4 -2n" 0;
    mkSG 105 105 "P 42 m c" NUL "" "P 4c -2" 0;
    mkSG 106 106 "P 42 b c" NUL "" "P 4c -2ab" 0;
    mkSG 107 107 "I 4 m m" NUL "" "I 4 -2" 0;
    mkSG 108 108 "I 4 c m" NUL "" "I 4 -2c" 0;
    mkSG 109 109 "I 41 m d" NUL "" "I 4bw -2" 0;
    mkSG 110 110 "I 41 c d" NUL "" "I 4bw -2c" 0;
    mkSG 111 111 "P -4 2 m" NUL "" "P -4 2" 0;
    mkSG 112 112 "P -4 2 c" NUL "" "P -4 2c" 0;
    mkSG 113 113 "P -4 21 m" NUL "" "P -4 2ab" 0;
    mkSG 114 114 "P -4 21 c" NUL "" "P -4 2n" 0;
    mkSG 115 115 "P -4 m 2" NUL "" "P -4 -2" 0;
    mkSG 116 116 "P -4 c 2" NUL "" "P -4 -2c" 0;
    mkSG 117 117 "P -4 b 2" NUL "" "P -4 -2ab" 0;
    mkSG 118 118 "P -4 n 2" NUL "" "P -4 -2n" 0;
    mkSG 119 119 "I -4 m 2" NUL "" "I -4 -2" 0;
    mkSG 120 120 "I -4 c 2" NUL "" "I -4 -2c" 0;
    mkSG 121 121 "I -4 2 m" NUL "" "I -4 2" 0;
    mkSG 122 122 "I -4 2 d" NUL "" "I -4 2bw" 0;
    mkSG 123 123 "P 4/m m m" NUL "" "-P 4 2" 0;
    mkSG 124 124 "P 4/m c c" NUL "" "-P 4 2c" 0;
    mkSG 125 125 "P 4/n b m" "1"%char "" "P 4 2 -1ab" 21;
    mkSG 125 0 "P 4/n b m" "2"%char "" "-P 4a 2b" 0;
    mkSG 126 126 "P 4/n n c" "1"%char "" "P 4 2 -1n" 20;
    mkSG 126 0 "P 4/n n c" "2"%char "" "-P 4a 2bc" 0;
    mkSG 127 127 "P 4/m b m" NUL "" "-P 4 2ab" 0;
    mkSG 128 128 "P 4/m n c" NUL "" "-P 4 2n" 0;
    mkSG 129 129 "P 4/n m m" "1"%char "" "P 4ab 2ab -1ab" 29;
    mkSG 129 0 "P 4/n m m" "2"%char "" "-P 4a 2a" 0;
    mkSG 130 130 "P 4/n c c" "1"%char "" "P 4ab 2n -1ab" 29;
    mkSG 130 0 "P 4/n c c" "2"%char "" "-P 4a 2ac" 0;
    mkSG 131 131 "P 42/m m c" NUL "" "-P 4c 2" 0;
    mkSG 132 132 "P 42/m c m" NUL "" "-P 4c 2c" 0;
    mkSG 133 133 "P 42/n b c" "1"%char "" "P 4n 2c -1n" 32;
    mkSG 133 0 "P 42/n b c" "2"%char "" "-P 4ac 2b" 0;
    mkSG 134 134 "P 42/n n m" "1"%char "" "P 4n 2 -1n" 33;
    mkSG 134 0 "P 42/n n m" "2"%char "" "-P 4ac 2bc" 0;
    mkSG 135 135 "P 42/m b c" NUL "" "-P 4c 2ab" 0;
    mkSG 136 136 "P 42/m n m" NUL "" "-P 4n 2n" 0;
    mkSG 137 137 "P 42/n m c" "1"%char "" "P 4n 2n -1n" 32;
    mkSG 137 0 "P 42/n m c" "2"%char "" "-P 4ac 2a" 0;
    mkSG 138 138 "P 42/n c m" "1"%char "" "P 4n 2ab -1n" 33;
    mkSG 138 0 "P 42/n c m" "2"%char "" "-P 4ac 2ac" 0;
    mkSG 139 139 "I 4/m m m" NUL "" "-I 4 2" 0;
    mkSG 140 140 "I 4/m c m" NUL "" "-I 4 2c" 0;
    mkSG 141 141 "I 41/a m d" "1"%char "" "I 4bw 2bw -1bw" 34;
    mkSG 141 0 "I 41/a m d" "2"%char "" "-I 4bd 2" 0;
    mkSG 142 142 "I 41/a c d" "1"%char "" "I 4bw 2aw -1bw" 35;
    mkSG 142 0 "I 41/a c d" "2"%char "" "-I 4bd 2c" 0;
    mkSG 143 143 "P 3" NUL "" "P 3" 0;
    mkSG 144 144 "P 31" NUL "" "P 31" 0;
    mkSG 145 145 "P 32" NUL "" "P 32" 0;
    mkSG 146 146 "R 3" "H"%char "" "R 3" 0;
    mkSG 146 1146 "R 3" "R"%char "" "P 3*" 36;
    mkSG 147 147 "P -3" NUL "" "-P 3" 0;
    mkSG 148 148 "R -3" "H"%char "" "-R 3" 0;
    mkSG 148 1148 "R -3" "R"%char "" "-P 3*" 36;
    mkSG 149 149 "P 3 1 2" NUL "" "P 3 2" 0;
    mkSG 150 150 "P 3 2 1" NUL "" ("P 3 2" +++ dq) 0;
    mkSG 151 151 "P 31 1 2" NUL "" "P 31 2 (0 0 4)" 0;
    mkSG 152 152 "P 31 2 1" NUL "" ("P 31 2" +++ dq) 0;
    mkSG 153 153 "P 32 1 2" NUL "" "P 32 2 (0 0 2)" 0;
    mkSG 154 154 "P 32 2 1" NUL "" ("P 32 2" +++ dq) 0;
    mkSG 155 155 "R 3 2" "H"%char "" ("R 3 2" +++ dq) 0;
    mkSG 155 1155 "R 3 2" "R"%char "" "P 3* 2" 36;
    mkSG 156 156 "P 3 m 1" NUL "" ("P 3 -2" +++ dq) 0;
    mkSG 157 157 "P 3 1 m" NUL "" "P 3 -2" 0;
    mkSG 158 158 "P 3 c 1" NUL "" ("P 3 -2" +++ dq +++ "c") 0;
    mkSG 159 159 "P 3 1 c" NUL "" "P 3 -2c" 0;
    mkSG 160 160 "R 3 m" "H"%char "" ("R 3 -2" +++ dq) 0;
    mkSG 160 1160 "R 3 m" "R"%char "" "P 3* -2" 36;
    mkSG 161 161 "R 3 c" "H"%char "" ("R 3 -2" +++ dq +++ "c") 0;
    mkSG 161 1161 "R 3 c" "R"%char "" "P 3* -2n" 36;
    mkSG 162 162 "P -3 1 m" NUL "" "-P 3 2" 0;
    mkSG 163 163 "P -3 1 c" NUL "" "-P 3 2c" 0;
    mkSG 164 164 "P -3 m 1" NUL "" ("-P 3 2" +++ dq) 0;
    mkSG 165 165 "P -3 c 1" NUL "" ("-P 3 2" +++ dq +++ "c") 0;
    mkSG 166 166 "R -3 m" "H"%char "" ("-R 3 2" +++ dq) 0;
    mkSG 166 1166 "R -3 m" "R"%char "" "-P 3* 2" 36;
    mkSG 167 167 "R -3 c" "H"%char "" ("-R 3 2" +++ dq +++ "c") 0;
    mkSG 167 1167 "R -3 c" "R"%char "" "-P 3* 2n" 36;
    mkSG 168 168 "P 6" NUL "" "P 6" 0;
    mkSG 169 169 "P 61" NUL "" "P 61" 0;
    mkSG 170 170 "P 65" NUL "" "P 65" 0;
    mkSG 171 171 "P 62" NUL "" "P 62" 0;
    mkSG 172 172 "P 64" NUL "" "P 64" 0;
    mkSG 173 173 "P 63" NUL "" "P 6c" 0;
    mkSG 174 174 "P -6" NUL "" "P -6" 0;
    mkSG 175 175 "P 6/m" NUL "" "-P 6" 0;
    mkSG 176 176 "P 63/m" NUL "" "-P 6c" 0;
    mkSG 177 177 "P 6 2 2" NUL "" "P 6 2" 0;
    mkSG 178 178 "P 61 2 2" NUL "" "P 61 2 (0 0 5)" 0;
    mkSG 179 179 "P 65 2 2" NUL "" "P 65 2 (0 0 1)" 0;
    mkSG 180 180 "P 62 2 2" NUL "" "P 62 2 (0 0 4)" 0;
    mkSG 181 181 "P 64 2 2" NUL "" "P 64 2 (0 0 2)" 0;
    mkSG 182 182 "P 63 2 2" NUL "" "P 6c 2c" 0;
    mkSG 183 183 "P 6 m m" NUL "" "P 6 -2" 0;
    mkSG 184 184 "P 6 c c" NUL "" "P 6 -2c" 0;
    mkSG 185 185 "P 63 c m" NUL "" "P 6c -2" 0;
    mkSG 186 186 "P 63 m c" NUL "" "P 6c -2c" 0;
    mkSG 187 187 "P -6 m 2" NUL "" "P -6 2" 0;
    mkSG 188 188 "P -6 c 2" NUL "" "P -6c 2" 0;
    mkSG 189 189 "P -6 2 m" NUL "" "P -6 -2" 0;
    mkSG 190 190 "P -6 2 c" NUL "" "P -6c -2c" 0;
    mkSG 191 191 "P 6/m m m" NUL "" "-P 6 2" 0;
    mkSG 192 192 "P 6/m c c" NUL "" "-P 6 2c" 0;
    mkSG 193 193 "P 63/m c m" NUL "" "-P 6c 2" 0;
    mkSG 194 194 "P 63/m m c" NUL "" "-P 6c 2c" 0;
    mkSG 195 195 "P 2 3" NUL "" "P 2 2 3" 0;
    mkSG 196 196 "F 2 3" NUL "" "F 2 2 3" 0;
    mkSG 197 197 "I 2 3" NUL "" "I 2 2 3" 0;
    mkSG 198 198 "P 21 3" NUL "" "P 2ac 2ab 3" 0;
    mkSG 199 199 "I 21 3" NUL "" "I 2b 2c 3" 0;
    mkSG 200 200 "P m -3" NUL "" "-P 2 2 3" 0;
    mkSG 201 201 "P n -3" "1"%char "" "P 2 2 3 -1n" 20;
    mkSG 201 0 "P n -3" "2"%char "" "-P 2ab 2bc 3" 0;
    mkSG 202 202 "F m -3" NUL "" "-F 2 2 3" 0;
    mkSG 203 203 "F d -3" "1"%char "" "F 2 2 3 -1d" 27;
    mkSG 203 0 "F d -3" "2"%char "" "-F 2uv 2vw 3" 0;
    mkSG 204 204 "I m -3" NUL "" "-I 2 2 3" 0;
    mkSG 205 205 "P a -3" NUL "" "-P 2ac 2ab 3" 0;
    mkSG 206 206 "I a -3" NUL "" "-I 2b 2c 3" 0;
    mkSG 207 207 "P 4 3 2" NUL "" "P 4 2 3" 0;
    mkSG 208 208 "P 42 3 2" NUL "" "P 4n 2 3" 0;
    mkSG 209 209 "F 4 3 2" NUL "" "F 4 2 3" 0;
    mkSG 210 210 "F 41 3 2" NUL "" "F 4d 2 3" 0;
    mkSG 211 211 "I 4 3 2" NUL "" "I 4 2 3" 0;
    mkSG 212 212 "P 43 3 2" NUL "" "P 4acd 2ab 3" 0;
    mkSG 213 213 "P 41 3 2" NUL "" "P 4bd 2ab 3" 0;
    mkSG 214 214 "I 41 3 2" NUL "" "I 4bd 2c 3" 0;
    mkSG 215 215 "P -4 3 m" NUL "" "P -4 2 3" 0;
    mkSG 216 216 "F -4 3 m" NUL "" "F -4 2 3" 0;
    mkSG 217 217 "I -4 3 m" NUL "" "I -4 2 3" 0;
    mkSG 218 218 "P -4 3 n" NUL "" "P -4n 2 3" 0;
    mkSG 219 219 "F -4 3 c" NUL "" "F -4a 2 3" 0;
    mkSG 220 220 "I -4 3 d" NUL "" "I -4bd 2c 3" 0;
    mkSG 221 221 "P m -3 m" NUL "" "-P 4 2 3" 0;
    mkSG 222 222 "P n -3 n" "1"%char "" "P 4 2 3 -1n" 20;
    mkSG 222 0 "P n -3 n" "2"%char "" "-P 4a 2bc 3" 0;
    mkSG 223 223 "P m -3 n" NUL "" "-P 4n 2 3" 0;
    mkSG 224 224 "P n -3 m" "1"%char "" "P 4n 2 3 -1n" 30;
    mkSG 224 0 "P n -3 m" "2"%char "" "-P 4bc 2bc 3" 0;
    mkSG 225 225 "F m -3 m" NUL "" "-F 4 2 3" 0;
    mkSG 226 226 "F m -3 c" NUL "" "-F 4a 2 3" 0;
    mkSG 227 227 "F d -3 m" "1"%char "" "F 4d 2 3 -1d" 27;
    mkSG 227 0 "F d -3 m" "2"%char "" "-F 4vw 2vw 3" 0;
    mkSG 228 228 "F d -3 c" "1"%char "" "F 4d 2 3 -1ad" 37;
    mkSG 228 0 "F d -3 c" "2"%char "" "-F 4ud 2vw 3" 0;
    mkSG 229 229 "I m -3 m" NUL "" "-I 4 2 3" 0;
    mkSG 230 230 "I a -3 d" NUL "" "-I 4bd 2c 3" 0;
    mkSG 5 5005 "I 1 21 1" NUL "" "I 2yb" 38;
    mkSG 5 3005 "C 1 21 1" NUL "" "C 2yb" 14;
    mkSG 18 1018 "P 21212(a)" NUL "" "P 2ab 2a" 14;
    mkSG 20 1020 "C 2 2 21a)" NUL "" "C 2ac 2" 39;
    mkSG 21 1021 "C 2 2 2a" NUL "" "C 2ab 2b" 14;
    mkSG 22 1022 "F 2 2 2a" NUL "" "F 2 2c" 40;
    mkSG 23 1023 "I 2 2 2a" NUL "" "I 2ab 2bc" 33;
    mkSG 94 1094 "P 42 21 2a" NUL "" "P 4bc 2a" 20;
    mkSG 197 1197 "I 2 3a" NUL "" "I 2ab 2bc 3" 30;
    mkSG 1 0 "A 1" NUL "" "A 1" 41;
    mkSG 1 0 "B 1" NUL "" "B 1" 42;
    mkSG 1 0 "C 1" NUL "" "C 1" 43;
    mkSG 1 0 "F 1" NUL "" "F 1" 44;
    mkSG 1 0 "I 1" NUL "" "I 1" 45;
    mkSG 2 0 "A -1" NUL "" "-A 1" 41;
    mkSG 2 0 "B -1" NUL "" "-B 1" 42;
    mkSG 2 0 "C -1" NUL "" "-C 1" 43;
    mkSG 2 0 "F -1" NUL "" "-F 1" 44;
    mkSG 2 0 "I -1" NUL "" "-I 1" 45;
    mkSG 4 0 "C 1 1 21" NUL "" "C 2c" 46;
    mkSG 12 0 "F 1 2/m 1" NUL "" "-F 2y" 47;
    mkSG 64 0 "A b a m" NUL "" "-A 2 2ab" 3;
    mkSG 117 0 "C -4 2 b" NUL "" "C -4 2ya" 48;
    mkSG 139 0 "F 4/m m m" NUL "" "-F 4 2" 48
  ].

Definition alt_names : list SpaceGroupAltName := [
    mkAlt "A e m 2" NUL 190;
    mkAlt "B m e 2" NUL 191;
    mkAlt "B 2 e m" NUL 192;
    mkAlt "C 2 m e" NUL 193;
    mkAlt "C m 2 e" NUL 194;
    mkAlt "A e 2 m" NUL 195;
    mkAlt "A e a 2" NUL 202;
    mkAlt "B b e 2" NUL 203;
    mkAlt "B 2 e b" NUL 204;
    mkAlt "C 2 c e" NUL 205;
    mkAlt "C c 2 e" NUL 206;
    mkAlt "A e 2 a" NUL 207;
    mkAlt "C m c e" NUL 303;
    mkAlt "C c m e" NUL 304;
    mkAlt "A e m a" NUL 305;
    mkAlt "A e a m" NUL 306;
    mkAlt "B b e m" NUL 307;
    mkAlt "B m e b" NUL 308;
    mkAlt "C m m e" NUL 315;
    mkAlt "A e m m" NUL 317;
    mkAlt "B m e m" NUL 319;
    mkAlt "C c c e" "1"%char 321;
    mkAlt "C c c e" "2"%char 322;
    mkAlt "A e a a" "1"%char 325;
    mkAlt "A e a a" "2"%char 326;
    mkAlt "B b e b" "1"%char 329;
    mkAlt "B b e b" "2"%char 330
  ].

Definition ccp4_hkl_asu : list Z := [
    0; 0; 1; 1; 1; 1; 1; 1; 1; 1; 1; 1; 1; 1; 1; 2; 2; 2; 2; 2; 2; 2; 2; 2; 2; 2;
    2; 2; 2; 2; 2; 2; 2; 2; 2; 2; 2; 2; 2; 2; 2; 2; 2; 2; 2; 2; 2; 2; 2; 2; 2; 2;
    2; 2; 2; 2; 2; 2; 2; 2; 2; 2; 2; 2; 2; 2; 2; 2; 2; 2; 2; 2; 2; 2; 3; 3; 3; 3;
    3; 3; 3; 3; 3; 3; 3; 3; 3; 3; 4; 4; 4; 4; 4; 4; 4; 4; 4; 4; 4; 4; 4; 4; 4; 4;
    4; 4; 4; 4; 4; 4; 4; 4; 4; 4; 4; 4; 4; 4; 4; 4; 4; 4; 4; 4; 4; 4; 4; 4; 4; 4;
    4; 4; 4; 4; 4; 4; 4; 4; 4; 4; 4; 4; 5; 5; 5; 5; 5; 5; 6; 7; 6; 7; 6; 7; 7; 7;
    6; 7; 6; 7; 7; 6; 6; 7; 7; 7; 7; 3; 3; 3; 3; 3; 3; 3; 3; 3; 4; 4; 4; 4; 4; 4;
    4; 4; 4; 4; 4; 4; 4; 4; 4; 4; 4; 4; 8; 8; 8; 8; 8; 8; 8; 8; 8; 8; 8; 8; 9; 9;
    9; 9; 9; 9; 9; 9; 9; 9; 9; 9; 9; 9; 9; 9; 9; 9; 9; 9; 9; 9; 9; 9
  ].

End Tables_.

(** ** Lookup in the table

    A pointer to an entry of [Tables_::main] is the index of the entry;
    [nullptr] is [None]. *)

Fixpoint find_index {A : Type} (f : A -> bool) (l : list A) : option nat :=
  match l with
  | [] => None
  | x :: l' => if f x then Some O else option_map S (find_index f l')
  end.

Definition find_spacegroup_by_number (ccp4_ : Z) : option nat :=
  find_index (fun sg => ccp4 sg =? ccp4_) Tables_.main.

(** [s[i]] in a zero-filled [char] array that holds [s]. *)
Fixpoint char_at (s : string) (i : nat) : ascii :=
  match s, i with
  | EmptyString, _ => NUL
  | String c _, O => c
  | String _ s', S i' => char_at s' i'
  end.

(** [s + i], for [i] up to the length of [s]. *)
Fixpoint advance (s : string) (i : nat) : string :=
  match i with
  | O => s
  | S i' => advance (next s) i'
  end.

(** The first comparison loop: while the characters at [a] and [b] agree
    and [b] is not at its terminator, both advance by one character and
    then over blanks.  The fuel is at least the length of [b], so when it
    is used up [b] is at its terminator and the loop has ended. *)
Fixpoint match_hm (fuel : nat) (a b : string) : string * string :=
  match fuel with
  | O => (a, b)
  | S fuel' =>
      if char_eqb (deref a) (deref b) && negb (char_eqb (deref b) NUL)
      then match_hm fuel' (skip_blank (next a)) (skip_blank (next b))
      else (a, b)
  end.

(** The comparison of a name (from its third significant character, at
    [p + 1]) with a full Hermann-Mauguin symbol and an extension. *)
Definition matches_full (hm_ : string) (ext_ : ascii) (p : string) : bool :=
  let '(a, b) := match_hm (String.length hm_) (skip_blank (next p))
                          (skip_blank (advance hm_ 3)) in
  char_eqb (deref b) NUL
  && (char_eqb (deref a) NUL
      || (char_eqb (deref a) ":" && char_eqb (deref (skip_blank (next a))) ext_)).

(** The loop for short monoclinic names: while the characters at [a] and
    [b] agree and [b] is not at a space, [a] advances by one character and
    then over blanks, [b] by one character.  When both strings are at their
    terminators the source reads past the end of the name. *)
Fixpoint match_short (a b : string) : result (string * string) :=
  match b with
  | EmptyString =>
      if char_eqb (deref a) NUL then Undefined else Ok (a, b)
  | String cb b' =>
      if char_eqb (deref a) cb && negb (char_eqb cb " ") then
        if char_eqb cb NUL then Undefined
        else match_short (skip_blank (next a)) b'
      else Ok (a, b)
  end.

(** The test of one entry of the main table in [find_spacegroup_by_name]. *)
Definition name_matches (first : ascii) (p : string) (sg : SpaceGroup) : result bool :=
  if char_eqb (char_at (hm sg) 0) first && char_eqb (char_at (hm sg) 2) (deref p) then
    if char_eqb (deref p) NUL then Undefined
    else Ok (matches_full (hm sg) (ext sg) p)
  else if char_eqb (char_at (hm sg) 0) first && char_eqb (char_at (hm sg) 2) "1"
          && char_eqb (char_at (hm sg) 3) " " && negb (char_eqb (char_at (hm sg) 4) "1")
  then
    ' (a, b) <- match_short (skip_blank p) (advance (hm sg) 4) ;;
    Ok (char_eqb (deref a) NUL && char_eqb (deref b) " ")
  else Ok false.

Fixpoint find_main (first : ascii) (p : string) (l : list SpaceGroup) (i : nat)
  : result (option nat) :=
  match l with
  | [] => Ok None
  | sg :: l' =>
      m <- name_matches first p sg ;;
      if (m : bool) then Ok (Some i) else find_main first p l' (S i)
  end.

Definition alt_matches (first : ascii) (p : string) (sg : SpaceGroupAltName) : result bool :=
  if char_eqb (char_at (alt_hm sg) 0) first && char_eqb (char_at (alt_hm sg) 2) (deref p) then
    if char_eqb (deref p) NUL then Undefined
    else Ok (matches_full (alt_hm sg) (alt_ext sg) p)
  else Ok false.

Fixpoint find_alt (first : ascii) (p : string) (l : list SpaceGroupAltName)
  : result (option nat) :=
  match l with
  | [] => Ok None
  | sg :: l' =>
      m <- alt_matches first p sg ;;
      if (m : bool) then Ok (Some (alt_pos sg)) else find_alt first p l'
  end.

(** [find_spacegroup_by_name] once the leading ['H'] has been replaced. *)
Definition lookup_name (name : string) : result (option nat) :=
  let p := skip_blank name in
  if is_digit (deref p) then
    let '(n, endptr) := strtol p in
    if char_eqb (deref endptr) NUL then Ok (find_spacegroup_by_number (to_int n))
    else Ok None
  else
    let first := clear_bit5 (deref p) in
    if char_eqb first NUL then Ok None
    else
      let p := skip_blank (next p) in
      r <- find_main first p Tables_.main 0 ;;
      match r with
      | Some i => Ok (Some i)
      | None => find_alt first p Tables_.alt_names
      end.

Definition find_spacegroup_by_name (name : string) : result (option nat) :=
  lookup_name (if char_eqb (deref name) "H" then String "R" (next name) else name).

(** ** Reciprocal-space asymmetric unit *)

Record HklAsuChecker : Type := mkChecker { idx : Z; asu_rot : Rot }.

Definition make_checker (sg : SpaceGroup) : result HklAsuChecker :=
  cob <- basisop sg ;;
  inv <- inverse cob ;;
  match nth_error Tables_.ccp4_hkl_asu (Z.to_nat (number sg - 1)) with
  | Some i => if 1 <=? number sg then Ok (mkChecker i (rot inv)) else Undefined
  | None => Undefined
  end.

Definition is_in_reference_setting (ch : HklAsuChecker) (h k l : Z) : result bool :=
  match idx ch with
  | 0 => Ok ((l >? 0) || ((l =? 0) && ((h >? 0) || ((h =? 0) && (k >=? 0)))))
  | 1 => Ok ((k >=? 0) && ((l >? 0) || ((l =? 0) && (h >=? 0))))
  | 2 => Ok ((h >=? 0) && (k >=? 0) && (l >=? 0))
  | 3 => Ok ((l >=? 0) && (((h >=? 0) && (k >? 0)) || ((h =? 0) && (k =? 0))))
  | 4 => Ok ((h >=? k) && (k >=? 0) && (l >=? 0))
  | 5 => Ok (((h >=? 0) && (k >? 0)) || ((h =? 0) && (k =? 0) && (l >=? 0)))
  | 6 => Ok ((h >=? k) && (k >=? 0) && ((k >? 0) || (l >=? 0)))
  | 7 => Ok ((h >=? k) && (k >=? 0) && ((h >? k) || (l >=? 0)))
  | 8 => Ok ((h >=? 0) && (((l >=? h) && (k >? h)) || ((l =? h) && (k =? h))))
  | 9 => Ok ((k >=? l) && (l >=? h) && (h >=? 0))
  | _ => Undefined
  end.

Definition is_in (ch : HklAsuChecker) (h k l : Z) : result bool :=
  let r := asu_rot ch in
  is_in_reference_setting ch
    (rc r 0 0 * h + rc r 0 1 * k + rc r 0 2 * l)
    (rc r 1 0 * h + rc r 1 1 * k + rc r 1 2 * l)
    (rc r 2 0 * h + rc r 2 1 * k + rc r 2 2 * l).

(** ** Boolean checks that the proofs evaluate *)

(** The round trip through [triplet] and [parse_triplet] for one [Op]. *)
Definition round_trip (op : Op) : bool :=
  match parse_triplet (triplet op) with
  | Ok op' => op_eqb op' op
  | _ => false
  end.

(** The round trip for every operation of the group of a table entry. *)
Definition round_trip_entry (sg : SpaceGroup) : bool :=
  match operations sg with
  | Ok g => forallb round_trip (all_ops g)
  | _ => false
  end.

(** ** Blanks and underscores in a triplet *)

(** [underscored s s']: [s'] is [s] with some of its spaces and tabs
    replaced by underscores. *)
Inductive underscored : string -> string -> Prop :=
| underscored_nil : underscored EmptyString EmptyString
| underscored_keep (c : ascii) (s s' : string) :
    underscored s s' -> underscored (String c s) (String c s')
| underscored_blank (c : ascii) (s s' : string) :
    c = " "%char \/ c = TAB ->
    underscored s s' -> underscored (String c s) (String "_"%char s').

(** No ['/'] of [s] is directly followed by a blank or by white space
    (which [strtol], not [skip_blank], would skip). *)
Fixpoint no_blank_after_slash (s : string) : bool :=
  match s with
  | EmptyString => true
  | String c s' =>
      (if char_eqb c "/" then negb (isspace (deref s') || is_blank (deref s')) else true)
      && no_blank_after_slash s'
  end.

(** Every blank becomes a space. *)
Definition norm_char (c : ascii) : ascii := if is_blank c then " "%char else c.

Fixpoint norm (s : string) : string :=
  match s with
  | EmptyString => EmptyString
  | String c s' => String (norm_char c) (norm s')
  end.

(** The relation between the outcomes of [parse_term] on a text and on
    its normal form. *)
Definition term_rel (x y : result (array4 * string)) : Prop :=
  match x, y with
  | Ok (r1, c1), Ok (r2, c2) =>
      r1 = r2 /\ c2 = norm c1 /\ no_blank_after_slash c1 = true
  | Fail _, Fail _ => True
  | Undefined, Undefined => True
  | OutOfFuel, OutOfFuel => True
  | _, _ => False
  end.

(** The same value, or a failure on both sides (the messages quote the
    input and are not compared). *)
Definition same_result {A : Type} (x y : result A) : Prop :=
  match x, y with
  | Ok a, Ok b => a = b
  | Fail _, Fail _ => True
  | Undefined, Undefined => True
  | OutOfFuel, OutOfFuel => True
  | _, _ => False
  end.

(** What a pass may do to the pair of [sym_ops] and [coset_repr]: both grow
    at the end, [sym_ops] by at least as much as [coset_repr]. *)
Definition grows (st st' : list Op * list Op) : Prop :=
  exists l k, fst st' = fst st ++ l /\ snd st' = snd st ++ k
              /\ (List.length k <= List.length l)%nat /\ (k = [] -> l = []).

(** The outcome that the claims allow: the error of [check_size], or a
    list of at most 1023 operations that extends [ops]. *)
Definition bounded_from (ops : list Op) (r : result (list Op)) : Prop :=
  r = Fail too_large
  \/ exists l, r = Ok (ops ++ l) /\ (List.length (ops ++ l) <= 1023)%nat.

(** The rotation parts of a list of operations are pairwise distinct. *)
Fixpoint distinct_rots (l : list Op) : bool :=
  match l with
  | [] => true
  | x :: l' => negb (existsb (fun y => rot_eqb (rot x) (rot y)) l') && distinct_rots l'
  end.

(** The closure of the generators of a table entry succeeds with distinct
    rotation parts. *)
Definition closure_entry (sg : SpaceGroup) : bool :=
  match generators_from_hall (hall sg) with
  | Ok g0 =>
      match add_missing_elements g0 with
      | Ok g => distinct_rots (sym_ops g)
      | _ => false
      end
  | _ => false
  end.

(** ** Names that spell a Hermann-Mauguin symbol *)

(** The significant characters of a C string: those before the terminator
    that are not blanks. *)
Fixpoint significant (s : string) : string :=
  match s with
  | EmptyString => EmptyString
  | String c s' =>
      if char_eqb c NUL then EmptyString
      else if is_blank c then significant s'
      else String c (significant s')
  end.

(** [c | 0x20]: the lower-case letter of an upper-case letter. *)
Definition set_bit5 (c : ascii) : ascii :=
  match c with
  | Ascii b0 b1 b2 b3 b4 _ b6 b7 => Ascii b0 b1 b2 b3 b4 true b6 b7
  end.

Definition lower_first (s : string) : string :=
  match s with
  | EmptyString => EmptyString
  | String c s' => String (set_bit5 c) s'
  end.

(** [name] differs from the symbol [hm_] only in its blanks and in the case
    of the first (lattice) letter. *)
Definition spells (name hm_ : string) : Prop :=
  significant name = significant hm_
  \/ significant name = lower_first (significant hm_).

(** The first entry of the main table with a given Hermann-Mauguin symbol. *)
Definition first_with_hm (hm_ : string) : option nat :=
  find_index (fun e => String.eqb (hm e) hm_) Tables_.main.

(** The position of a name: not at a blank. *)
Definition at_char (a : string) : Prop := is_blank (deref a) = false.

Definition lookup_eqb (x : result (option nat)) (j : option nat) : bool :=
  match x, j with
  | Ok (Some a), Some b => Nat.eqb a b
  | Ok None, None => true
  | _, _ => false
  end.

(** The lookup of a text of significant characters: it does not start
    with ['H'] or a digit and finds the first entry with the symbol. *)
Definition lookup_check (j : option nat) (t : string) : bool :=
  negb (char_eqb (deref t) "H") && negb (is_digit (deref t))
  && lookup_eqb (find_spacegroup_by_name t) j.

Definition lookup_entry (sg : SpaceGroup) : bool :=
  lookup_check (first_with_hm (hm sg)) (significant (hm sg))
  && lookup_check (first_with_hm (hm sg)) (lower_first (significant (hm sg))).

(** ** The check of the reciprocal-space asymmetric unit *)

Definition mat_vec (M : Rot) (m : Miller) : Miller :=
  build3 (fun k => rc M k 0 * nth3 m 0 + rc M k 1 * nth3 m 1 + rc M k 2 * nth3 m 2).

Definition neg_hkl (m : Miller) : Miller := map3 Z.opp m.

(** The inequalities of pattern [i] hold at [v]. *)
Definition in_ref (i : Z) (v : Miller) : bool :=
  match is_in_reference_setting (mkChecker i (rot identity)) (at0 v) (at1 v) (at2 v) with
  | Ok b => b
  | _ => false
  end.

(** For a rotation [r] whose entries are multiples of [DEN], the matrix [M]
    with [M m = R (hkl_image r m)]: the product of [R] and the transposed
    [r / DEN]. *)
Definition prepare (R r : Rot) : option (Rot * Rot) :=
  let q := map3 (map3 (fun x => Z.quot x DEN)) r in
  if rot_eqb r (map3 (map3 (fun x => x * DEN)) q) then
    Some (r, build3 (fun k => build3 (fun j =>
                 rc R k 0 * rc q j 0 + rc R k 1 * rc q j 1 + rc R k 2 * rc q j 2)))
  else None.

Fixpoint prepare_all (R : Rot) (rots : list Rot) : option (list (Rot * Rot)) :=
  match rots with
  | [] => Some []
  | r :: rots' =>
      match prepare R r, prepare_all R rots' with
      | Some p, Some ps => Some (p :: ps)
      | _, _ => None
      end
  end.

(** The members of the orbit of [m], with their Friedel mates, that lie in
    the asymmetric unit, one for every operation and sign that gives one. *)
Definition asu_members (i : Z) (prepared : list (Rot * Rot)) (m : Miller) : list Miller :=
  flat_map (fun p : Rot * Rot =>
              let v := mat_vec (snd p) m in
              (if in_ref i v then [hkl_image (fst p) m] else [])
              ++ (if in_ref i (neg_hkl v) then [neg_hkl (hkl_image (fst p) m)] else []))
           prepared.

Definition check_point (i : Z) (prepared : list (Rot * Rot)) (m : Miller) : bool :=
  match asu_members i prepared m with
  | [] => false
  | c :: rest => forallb (tran_eqb c) rest
  end.

Definition range8 : list Z := map (fun n => Z.of_nat n - 8) (seq 0 17).

Definition cube : list Miller :=
  flat_map (fun h => flat_map (fun k => map (fun l => mk3 h k l) range8) range8) range8.

(** One of [m] and [- m]. *)
Definition in_half (m : Miller) : bool :=
  (at2 m >? 0) || ((at2 m =? 0) && ((at0 m >? 0) || ((at0 m =? 0) && (at1 m >=? 0)))).

Definition half_cube : list Miller := filter in_half cube.

Definition asu_key : Type := Z * Rot * list Rot.

Definition asu_check (key : option asu_key) : bool :=
  match key with
  | Some (i, R, rots) =>
      match prepare_all R rots with
      | Some prepared => forallb (check_point i prepared) half_cube
      | None => false
      end
  | None => false
  end.

Definition key_of (sg : SpaceGroup) : option asu_key :=
  match operations sg, make_checker sg with
  | Ok g, Ok ch =>
      match cen_ops g with
      | [] => None
      | _ :: _ => Some (idx ch, asu_rot ch, map rot (sym_ops g))
      end
  | _, _ => None
  end.

Fixpoint rots_eqb (a b : list Rot) : bool :=
  match a, b with
  | [], [] => true
  | x :: a', y :: b' => rot_eqb x y && rots_eqb a' b'
  | _, _ => false
  end.

Definition key_eqb (a b : option asu_key) : bool :=
  match a, b with
  | Some (i, R, rots), Some (i', R', rots') =>
      (i =? i') && rot_eqb R R' && rots_eqb rots rots'
  | None, None => true
  | _, _ => false
  end.

Fixpoint dedup_keys (l : list (option asu_key)) : list (option asu_key) :=
  match l with
  | [] => []
  | x :: l' => x :: filter (fun y => negb (key_eqb x y)) (dedup_keys l')
  end.

Definition rhombohedral_axes (sg : SpaceGroup) : bool := char_eqb (ext sg) "R".

Definition checked_keys : list (option asu_key) :=
  dedup_keys (map key_of (filter (fun sg => negb (rhombohedral_axes sg)) Tables_.main)).

(** ** Orbits of Miller indices *)

(** The sampled cube: every index in [-8, 8]. *)
Definition cube8 (m : Miller) : Prop :=
  -8 <= at0 m <= 8 /\ -8 <= at1 m <= 8 /\ -8 <= at2 m <= 8.

(** [t] is in the orbit of [m] under the operations of [g]. *)
Definition in_orbit (g : GroupOps) (m t : Miller) : Prop :=
  exists op, In op (all_ops g) /\ t = apply_to_hkl op m.

(** [t] is in the orbit of [m] or the Friedel mate of a member of it. *)
Definition in_friedel_orbit (g : GroupOps) (m t : Miller) : Prop :=
  exists op, In op (all_ops g)
             /\ (t = apply_to_hkl op m \/ t = neg_hkl (apply_to_hkl op m)).

(** The same for a list of rotation parts. *)
Definition in_friedel_images (rots : list Rot) (m t : Miller) : Prop :=
  exists r, In r rots /\ (t = hkl_image r m \/ t = neg_hkl (hkl_image r m)).

(** [is_in] returns [true]. *)
Definition in_asu (ch : HklAsuChecker) (t : Miller) : Prop :=
  is_in ch (at0 t) (at1 t) (at2 t) = Ok true.

(** The outcome is not an artefact of the fuel. *)
Definition ended {A : Type} (x : result A) : Prop := x <> OutOfFuel.

(** * Properties *)

(** ** Equality tests *)

Lemma tran_eqb_eq (a b : Tran) : tran_eqb a b = true -> a = b.
Proof.
  destruct a, b. unfold tran_eqb. cbn.
  rewrite !andb_true_iff, !Z.eqb_eq. intros [[-> ->] ->]. reflexivity.
Qed.

Lemma rot_eqb_eq (a b : Rot) : rot_eqb a b = true -> a = b.
Proof.
  destruct a, b. unfold rot_eqb. cbn.
  rewrite !andb_true_iff. intros [[H0 H1] H2].
  apply tran_eqb_eq in H0, H1, H2. subst. reflexivity.
Qed.

Lemma op_eqb_eq (a b : Op) : op_eqb a b = true -> a = b.
Proof.
  destruct a, b. unfold op_eqb. cbn.
  rewrite andb_true_iff. intros [Hr Ht].
  apply rot_eqb_eq in Hr. apply tran_eqb_eq in Ht. subst. reflexivity.
Qed.

Lemma tran_eqb_refl (a : Tran) : tran_eqb a a = true.
Proof. unfold tran_eqb. rewrite !Z.eqb_refl. reflexivity. Qed.

Lemma rot_eqb_refl (a : Rot) : rot_eqb a a = true.
Proof. unfold rot_eqb. rewrite !tran_eqb_refl. reflexivity. Qed.

(** ** [wrap] *)

Lemma wrap_coord_range (t : Z) : 0 <= wrap_coord t < DEN.
Proof.
  unfold wrap_coord, DEN.
  destruct (Z.geb_spec t 24) as [Hge|Hlt].
  - pose proof (Z.rem_bound_pos t 24). lia.
  - destruct (Z.ltb_spec t 0) as [Hneg|Hpos]; [|lia].
    pose proof (Z.rem_bound_pos_neg (t + 1) 24). lia.
Qed.

Lemma wrap_coord_congr (t : Z) : (wrap_coord t - t) mod DEN = 0.
Proof.
  unfold wrap_coord, DEN.
  destruct (Z.geb_spec t 24) as [Hge|Hlt].
  - rewrite (Z.rem_mod_nonneg t 24) by lia.
    rewrite Zminus_mod, Zmod_mod, <- Zminus_mod, Z.sub_diag. reflexivity.
  - destruct (Z.ltb_spec t 0) as [Hneg|Hpos].
    + pose proof (Z.quot_rem' (t + 1) 24) as E.
      replace (Z.rem (t + 1) 24 + 24 - 1 - t)
        with ((1 - Z.quot (t + 1) 24) * 24) by lia.
      apply Z_mod_mult.
    + rewrite Z.sub_diag. reflexivity.
Qed.

(** C6. After [wrap] each translation component lies in [0, DEN) and is
    congruent modulo [DEN] to its value before the call; the rotation
    matrix is unchanged. *)
Theorem wrap_spec (op : Op) (i : nat) :
  (i < 3)%nat ->
  0 <= nth3 (tran (wrap op)) i < DEN
  /\ nth3 (tran (wrap op)) i mod DEN = nth3 (tran op) i mod DEN
  /\ rot (wrap op) = rot op.
Proof.
  intros Hi.
  assert (E : nth3 (tran (wrap op)) i = wrap_coord (nth3 (tran op) i)).
  { destruct i as [|[|[|i]]]; reflexivity. }
  rewrite E. split; [apply wrap_coord_range|]. split; [|reflexivity].
  pose proof (wrap_coord_congr (nth3 (tran op) i)) as C.
  unfold DEN in *.
  rewrite Zminus_mod in C.
  pose proof (Z.mod_pos_bound (wrap_coord (nth3 (tran op) i)) 24 ltac:(lia)).
  pose proof (Z.mod_pos_bound (nth3 (tran op) i) 24 ltac:(lia)).
  set (a := wrap_coord (nth3 (tran op) i) mod 24) in *.
  set (b := nth3 (tran op) i mod 24) in *.
  destruct (Z.eq_dec a b) as [->|NE]; [reflexivity|exfalso].
  destruct (Z_lt_le_dec a b).
  - rewrite <- (Z.mod_add _ 1 24), Z.mod_small in C; lia.
  - rewrite Z.mod_small in C; lia.
Qed.

Lemma wrap_spec_witness :
  let op := mkOp (rot identity) (mk3 (-1) 49 (-24)) in
  (1 < 3)%nat
  /\ (0 <= nth3 (tran (wrap op)) 1 < DEN
      /\ nth3 (tran (wrap op)) 1 mod DEN = nth3 (tran op) 1 mod DEN
      /\ rot (wrap op) = rot op).
Proof.
  intro op. split; [lia | apply (wrap_spec op 1); lia].
Defined.

(** ** Error surfaces and concrete Hall symbols *)

(** C7. [parse_triplet "x,y"] fails with the message of the comma count and
    [symops_from_hall "P 7 2"] fails with the message of the n-fold order;
    neither returns a value. *)
Theorem error_surfaces :
  parse_triplet "x,y" = Fail "expected exactly two commas in triplet"
  /\ symops_from_hall "P 7 2" = Fail "wrong n-fold order notation: 7"
  /\ is_ok (parse_triplet "x,y") = false
  /\ is_ok (symops_from_hall "P 7 2") = false.
Proof. repeat split; vm_compute; reflexivity. Qed.

(** C9. [find_spacegroup_by_number 0] is not [nullptr]: it is the entry at
    index 4, the first one whose [ccp4] field is 0, which is the setting
    "P 2 1 1" of space group 3. *)
Theorem find_by_number_zero :
  find_spacegroup_by_number 0 = Some 4%nat
  /\ (exists sg, nth_error Tables_.main 4 = Some sg
        /\ hm sg = "P 2 1 1" /\ number sg = 3 /\ ccp4 sg = 0)
  /\ forallb (fun sg => negb (ccp4 sg =? 0)) (firstn 4 Tables_.main) = true.
Proof.
  split; [vm_compute; reflexivity|].
  split; [|vm_compute; reflexivity].
  eexists. split; [reflexivity|]. repeat split.
Qed.

(** C3. [symops_from_hall "P 4w 2c"] succeeds with a group of order 8 that
    is not centric and is the same as the operations of the table entry
    found for space-group number 91. *)
Theorem hall_P4w2c :
  exists g i sg h,
    symops_from_hall "P 4w 2c" = Ok g
    /\ order g = 8
    /\ is_centric g = false
    /\ find_spacegroup_by_number 91 = Some i
    /\ nth_error Tables_.main i = Some sg
    /\ number sg = 91
    /\ operations sg = Ok h
    /\ is_same_as g h = true.
Proof.
  do 4 eexists.
  split; [vm_compute; reflexivity|].
  split; [vm_compute; reflexivity|].
  split; [vm_compute; reflexivity|].
  split; [vm_compute; reflexivity|].
  split; [vm_compute; reflexivity|].
  split; [vm_compute; reflexivity|].
  split; vm_compute; reflexivity.
Qed.

(** C5. The group of Hall symbol "I 2y", after the change of basis
    "x,y,x+z", is the same as the operations of the table entry whose
    Hermann-Mauguin symbol is "C 1 2 1". *)
Theorem change_basis_I2_to_C2 :
  exists g cob g' i sg h,
    symops_from_hall "I 2y" = Ok g
    /\ parse_triplet "x,y,x+z" = Ok cob
    /\ change_basis g cob = Ok g'
    /\ find_spacegroup_by_name "C 1 2 1" = Ok (Some i)
    /\ nth_error Tables_.main i = Some sg
    /\ hm sg = "C 1 2 1"
    /\ operations sg = Ok h
    /\ is_same_as g' h = true.
Proof.
  do 6 eexists.
  split; [vm_compute; reflexivity|].
  split; [vm_compute; reflexivity|].
  split; [vm_compute; reflexivity|].
  split; [vm_compute; reflexivity|].
  split; [vm_compute; reflexivity|].
  split; [vm_compute; reflexivity|].
  split; vm_compute; reflexivity.
Qed.

(** ** Round trip of the triplet notation *)

Lemma round_trip_sound (op : Op) :
  round_trip op = true -> parse_triplet (triplet op) = Ok op.
Proof.
  unfold round_trip.
  destruct (parse_triplet (triplet op)) as [op'| | |]; try discriminate.
  intros H. apply op_eqb_eq in H. congruence.
Qed.

Lemma round_trip_table : forallb round_trip_entry Tables_.main = true.
Proof. vm_compute. reflexivity. Qed.

(** C2. For every entry of the table the operations are computed, and every
    operation of the expanded group (each symmetry operation combined with
    each centering vector, wrapped) is read back by [parse_triplet] from
    its [triplet]. *)
Theorem triplet_round_trip :
  Forall (fun sg =>
            exists g, operations sg = Ok g
                      /\ Forall (fun op => parse_triplet (triplet op) = Ok op)
                                (all_ops g))
         Tables_.main.
Proof.
  apply Forall_forall. intros sg Hsg.
  pose proof (proj1 (forallb_forall _ _) round_trip_table sg Hsg) as H.
  unfold round_trip_entry in H.
  destruct (operations sg) as [g| | |]; try discriminate.
  exists g. split; [reflexivity|].
  apply Forall_forall. intros op Hop.
  apply round_trip_sound.
  exact (proj1 (forallb_forall _ _) H op Hop).
Qed.

(** ** Underscores as blanks in [parse_triplet] *)

Lemma char_eqb_eq (a b : ascii) : char_eqb a b = true -> a = b.
Proof. apply Ascii.eqb_eq. Qed.

Lemma is_blank_cases (c : ascii) :
  is_blank c = true -> c = " "%char \/ c = TAB \/ c = "_"%char.
Proof.
  unfold is_blank. rewrite !orb_true_iff.
  intros [[H|H]|H]; apply char_eqb_eq in H; auto.
Qed.

(** A test that does not tell the three blanks apart does not see
    [norm_char]. *)
Lemma norm_char_pred {B : Type} (f : ascii -> B) :
  f TAB = f " "%char -> f "_"%char = f " "%char ->
  forall c, f (norm_char c) = f c.
Proof.
  intros Ht Hu c. unfold norm_char.
  destruct (is_blank c) eqn:E; [|reflexivity].
  destruct (is_blank_cases c E) as [->|[->| ->]]; congruence.
Qed.

Lemma norm_char_eqb (x c : ascii) :
  is_blank x = false -> char_eqb (norm_char c) x = char_eqb c x.
Proof.
  intros Hx.
  assert (N : forall b, is_blank b = true -> char_eqb b x = false).
  { intros b Hb. destruct (char_eqb b x) eqn:E; [|reflexivity].
    apply char_eqb_eq in E. congruence. }
  apply (norm_char_pred (fun y => char_eqb y x)); rewrite !N; reflexivity.
Qed.

Lemma norm_char_is_blank (c : ascii) : is_blank (norm_char c) = is_blank c.
Proof. apply (norm_char_pred is_blank); reflexivity. Qed.

Lemma norm_char_is_digit (c : ascii) : is_digit (norm_char c) = is_digit c.
Proof. apply (norm_char_pred is_digit); reflexivity. Qed.

Lemma norm_char_memchr (set : string) (c : ascii) :
  memchr set " " = false -> memchr set TAB = false -> memchr set "_" = false ->
  memchr set (norm_char c) = memchr set c.
Proof.
  intros H1 H2 H3. apply (norm_char_pred (memchr set)); congruence.
Qed.

Lemma norm_char_not_blank (c : ascii) : is_blank c = false -> norm_char c = c.
Proof. unfold norm_char. intros ->. reflexivity. Qed.

Lemma is_digit_not_blank (c : ascii) :
  is_digit c = true -> is_blank c = false /\ isspace c = false.
Proof.
  intros H. split.
  - destruct (is_blank c) eqn:E; [|reflexivity].
    destruct (is_blank_cases c E) as [->|[->| ->]]; discriminate.
  - unfold is_digit, isspace in *.
    apply andb_true_iff in H. destruct H as [H1 H2].
    apply Z.leb_le in H1, H2.
    apply orb_false_iff. split.
    + apply Z.eqb_neq. lia.
    + apply andb_false_iff. right. apply Z.leb_gt. lia.
Qed.

Lemma deref_norm (c : string) : deref (norm c) = norm_char (deref c).
Proof. destruct c; reflexivity. Qed.

Lemma next_norm (c : string) : next (norm c) = norm (next c).
Proof. destruct c; reflexivity. Qed.

Lemma length_norm (s : string) : String.length (norm s) = String.length s.
Proof. induction s; cbn; congruence. Qed.

Lemma skip_blank_norm (c : string) : skip_blank (norm c) = norm (skip_blank c).
Proof.
  induction c as [|x c IH]; [reflexivity|].
  cbn. rewrite norm_char_is_blank.
  destruct (is_blank x); [exact IH|reflexivity].
Qed.

Lemma read_digits_norm (c : string) : forall acc,
  read_digits acc (norm c) = (fst (read_digits acc c), norm (snd (read_digits acc c))).
Proof.
  induction c as [|x c IH]; intros acc; [reflexivity|].
  cbn. rewrite norm_char_is_digit.
  destruct (is_digit x) eqn:E; [|reflexivity].
  rewrite (norm_char_not_blank x) by (apply is_digit_not_blank; exact E).
  apply IH.
Qed.

Lemma skip_space_id (c : string) : isspace (deref c) = false -> skip_space c = c.
Proof. destruct c as [|x c]; cbn; [reflexivity|]. intros ->. reflexivity. Qed.

Lemma strtol_norm (c : string) :
  isspace (deref c) = false -> is_blank (deref c) = false ->
  strtol (norm c) = (fst (strtol c), norm (snd (strtol c))).
Proof.
  intros Hs Hb. unfold strtol.
  assert (Hd : deref (norm c) = deref c).
  { rewrite deref_norm. apply norm_char_not_blank. exact Hb. }
  rewrite (skip_space_id (norm c)) by (rewrite Hd; exact Hs).
  rewrite (skip_space_id c) by exact Hs.
  rewrite Hd, !next_norm.
  destruct (char_eqb (deref c) "-").
  - rewrite deref_norm, norm_char_is_digit.
    destruct (is_digit (deref (next c))); [|reflexivity].
    rewrite read_digits_norm. destruct (read_digits 0 (next c)). reflexivity.
  - destruct (char_eqb (deref c) "+").
    + rewrite deref_norm, norm_char_is_digit.
      destruct (is_digit (deref (next c))); [|reflexivity].
      rewrite read_digits_norm. destruct (read_digits 0 (next c)). reflexivity.
    + rewrite Hd.
      destruct (is_digit (deref c)); [|reflexivity].
      rewrite read_digits_norm. destruct (read_digits 0 c). reflexivity.
Qed.

(** [no_blank_after_slash] passes to the positions that the parser reaches. *)

Lemma nbas_next (c : string) :
  no_blank_after_slash c = true -> no_blank_after_slash (next c) = true.
Proof.
  destruct c as [|x c]; cbn; [auto|].
  intros H. apply andb_true_iff in H. apply H.
Qed.

Lemma nbas_skip_blank (c : string) :
  no_blank_after_slash c = true -> no_blank_after_slash (skip_blank c) = true.
Proof.
  induction c as [|x c IH]; [auto|].
  intros H. cbn. destruct (is_blank x); [|exact H].
  apply IH. exact (nbas_next _ H).
Qed.

Lemma nbas_skip_space (c : string) :
  no_blank_after_slash c = true -> no_blank_after_slash (skip_space c) = true.
Proof.
  induction c as [|x c IH]; [auto|].
  intros H. cbn. destruct (isspace x); [|exact H].
  apply IH. exact (nbas_next _ H).
Qed.

Lemma nbas_read_digits (c : string) : forall acc,
  no_blank_after_slash c = true ->
  no_blank_after_slash (snd (read_digits acc c)) = true.
Proof.
  induction c as [|x c IH]; intros acc H; [exact H|].
  cbn. destruct (is_digit x); [|exact H].
  apply IH. exact (nbas_next _ H).
Qed.

Lemma nbas_strtol (c : string) :
  no_blank_after_slash c = true -> no_blank_after_slash (snd (strtol c)) = true.
Proof.
  intros H. unfold strtol.
  pose proof (nbas_skip_space c H) as Hs.
  set (s1 := skip_space c) in *.
  assert (Hn := nbas_next s1 Hs).
  destruct (char_eqb (deref s1) "-");
    [|destruct (char_eqb (deref s1) "+")];
    match goal with
    | |- context [is_digit (deref ?p)] =>
        destruct (is_digit (deref p)); [|exact H];
        match goal with
        | |- context [read_digits 0 ?q] =>
            pose proof (nbas_read_digits q 0 ltac:(assumption));
            destruct (read_digits 0 q); assumption
        end
    end.
Qed.

Lemma nbas_slash (c : string) :
  no_blank_after_slash c = true -> char_eqb (deref c) "/" = true ->
  isspace (deref (next c)) = false /\ is_blank (deref (next c)) = false.
Proof.
  destruct c as [|x c]; cbn; [discriminate|].
  intros H E. rewrite E in H.
  apply andb_true_iff in H. destruct H as [H _].
  apply negb_true_iff, orb_false_iff in H. exact H.
Qed.

Lemma parse_sign_norm (num : Z) (c : string) :
  parse_sign num (norm c)
  = (fst (parse_sign num c), norm (snd (parse_sign num c))).
Proof.
  unfold parse_sign.
  rewrite deref_norm, !norm_char_eqb by reflexivity.
  rewrite next_norm, skip_blank_norm.
  destruct (char_eqb (deref c) "+"); [reflexivity|].
  destruct (char_eqb (deref c) "-"); reflexivity.
Qed.

Lemma nbas_parse_sign (num : Z) (c : string) :
  no_blank_after_slash c = true ->
  no_blank_after_slash (snd (parse_sign num c)) = true.
Proof.
  intros H. unfold parse_sign.
  pose proof (nbas_skip_blank _ (nbas_next _ H)).
  destruct (char_eqb (deref c) "+"); [assumption|].
  destruct (char_eqb (deref c) "-"); assumption.
Qed.

Lemma parse_number_norm (s s' : string) (num : Z) (c : string) :
  no_blank_after_slash c = true ->
  match parse_number s num c, parse_number s' num (norm c) with
  | Ok (n1, b1, c1), Ok (n2, b2, c2) =>
      n1 = n2 /\ b1 = b2 /\ c2 = norm c1 /\ no_blank_after_slash c1 = true
  | Fail _, Fail _ => True
  | _, _ => False
  end.
Proof.
  intros H. unfold parse_number.
  rewrite deref_norm, norm_char_is_digit.
  destruct (is_digit (deref c)) eqn:Ed; [|auto].
  destruct (is_digit_not_blank _ Ed) as [Hb Hs].
  rewrite (strtol_norm c Hs Hb).
  pose proof (nbas_strtol c H) as He.
  destruct (strtol c) as [v endptr]. cbn [fst snd] in *.
  rewrite deref_norm, norm_char_eqb by reflexivity.
  destruct (char_eqb (deref endptr) "/") eqn:Eslash.
  - destruct (nbas_slash endptr He Eslash) as [Hs1 Hb1].
    rewrite next_norm, (strtol_norm (next endptr) Hs1 Hb1).
    pose proof (nbas_strtol _ (nbas_next _ He)) as He'.
    destruct (strtol (next endptr)) as [d endptr']. cbn [fst snd] in *.
    destruct ((to_int d <? 1) || negb (Z.rem DEN (to_int d) =? 0)); cbn [bind]; [exact I|].
    rewrite deref_norm, norm_char_eqb by reflexivity.
    destruct (char_eqb (deref endptr') "*").
    + rewrite next_norm, skip_blank_norm. cbn.
      repeat split; auto using nbas_skip_blank, nbas_next.
    + cbn. auto.
  - cbn [bind].
    rewrite deref_norm, norm_char_eqb by reflexivity.
    destruct (char_eqb (deref endptr) "*").
    + rewrite next_norm, skip_blank_norm. cbn.
      repeat split; auto using nbas_skip_blank, nbas_next.
    + cbn. auto.
Qed.

Lemma add_term_norm (s s' : string) (r : array4) (num : Z) (b : bool) (c : string) :
  no_blank_after_slash c = true ->
  term_rel (add_term s r num b c) (add_term s' r num b (norm c)).
Proof.
  intros H. unfold add_term.
  destruct b; [cbn; auto|].
  rewrite deref_norm, !norm_char_memchr by reflexivity.
  rewrite next_norm.
  pose proof (nbas_next _ H).
  destruct (memchr "xXhHaA" (deref c)); [cbn; auto|].
  destruct (memchr "yYkKbB" (deref c)); [cbn; auto|].
  destruct (memchr "zZlLcC" (deref c)); cbn; auto.
Qed.

Lemma parse_term_norm (s s' : string) (r : array4) (num : Z) (c : string) :
  no_blank_after_slash c = true ->
  term_rel (parse_term s r num c) (parse_term s' r num (norm c)).
Proof.
  intros H. unfold parse_term.
  rewrite parse_sign_norm.
  pose proof (nbas_parse_sign num c H) as Hs.
  destruct (parse_sign num c) as [num1 c1]. cbn [fst snd] in *.
  destruct (num1 =? 0); [exact I|].
  pose proof (parse_number_norm s s' num1 c1 Hs) as Hn.
  destruct (parse_number s num1 c1) as [[[n1 b1] c2]| | |];
    destruct (parse_number s' num1 (norm c1)) as [[[n2 b2] c2']| | |];
    try contradiction; cbn [bind]; try exact I.
  destruct Hn as (-> & -> & -> & Hc2).
  apply add_term_norm. exact Hc2.
Qed.

Lemma parse_triplet_loop_norm (fuel : nat) (s s' : string) :
  forall (r : array4) (num : Z) (c : string),
    no_blank_after_slash c = true ->
    same_result (parse_triplet_loop fuel s r num c)
                (parse_triplet_loop fuel s' r num (norm c)).
Proof.
  induction fuel as [|fuel IH]; intros r num c H; cbn [parse_triplet_loop];
    rewrite skip_blank_norm, deref_norm, norm_char_eqb by reflexivity;
    (destruct (char_eqb (deref (skip_blank c)) NUL);
     [destruct (num =? 0); cbn; auto|]); [exact I|].
  pose proof (parse_term_norm s s' r num (skip_blank c) (nbas_skip_blank _ H)) as Ht.
  destruct (parse_term s r num (skip_blank c)) as [[r1 c1]| | |];
    destruct (parse_term s' r num (norm (skip_blank c))) as [[r2 c2]| | |];
    try contradiction; cbn [bind]; try exact I.
  destruct Ht as (-> & -> & Hc1).
  apply IH. exact Hc1.
Qed.

Lemma parse_triplet_part_norm (s : string) :
  no_blank_after_slash s = true ->
  same_result (parse_triplet_part s) (parse_triplet_part (norm s)).
Proof.
  intros H. unfold parse_triplet_part. rewrite length_norm.
  apply parse_triplet_loop_norm. exact H.
Qed.

Lemma count_char_norm (s : string) : count_char "," (norm s) = count_char "," s.
Proof.
  induction s as [|x s IH]; [reflexivity|].
  cbn. rewrite norm_char_eqb by reflexivity. rewrite IH. reflexivity.
Qed.

Lemma split_at_norm (s : string) :
  split_at "," (norm s)
  = (norm (fst (split_at "," s)), norm (snd (split_at "," s))).
Proof.
  induction s as [|x s IH]; [reflexivity|].
  cbn. rewrite norm_char_eqb by reflexivity.
  destruct (char_eqb x ","); [reflexivity|].
  rewrite IH. destruct (split_at "," s). reflexivity.
Qed.

Lemma deref_split_at (ch : ascii) (s : string) :
  deref (fst (split_at ch s)) = deref s \/ deref (fst (split_at ch s)) = NUL.
Proof.
  destruct s as [|x s]; cbn; [auto|].
  destruct (char_eqb x ch); [auto|].
  destruct (split_at ch s). auto.
Qed.

Lemma nbas_split_at (ch : ascii) (s : string) :
  no_blank_after_slash s = true ->
  no_blank_after_slash (fst (split_at ch s)) = true
  /\ no_blank_after_slash (snd (split_at ch s)) = true.
Proof.
  induction s as [|x s IH]; cbn; [auto|].
  intros H. apply andb_true_iff in H. destruct H as [Hx Hs].
  destruct (char_eqb x ch); [auto|].
  destruct (IH Hs) as [IH1 IH2].
  pose proof (deref_split_at ch s) as Hd.
  destruct (split_at ch s) as [a b]. cbn [fst snd] in *.
  split; [|exact IH2].
  cbn. rewrite IH1, andb_true_r.
  destruct (char_eqb x "/"); [|reflexivity].
  destruct Hd as [-> | ->]; [exact Hx|reflexivity].
Qed.

Lemma same_result_bind {A B : Type} (x y : result A) (f g : A -> result B) :
  same_result x y ->
  (forall a, same_result (f a) (g a)) ->
  same_result (bind x f) (bind y g).
Proof.
  intros Hxy Hfg.
  destruct x, y; cbn in *; try contradiction; try exact I.
  subst. apply Hfg.
Qed.

Lemma same_result_refl {A : Type} (x : result A) : same_result x x.
Proof. destruct x; cbn; auto. Qed.

Lemma same_result_sym {A : Type} (x y : result A) :
  same_result x y -> same_result y x.
Proof. destruct x, y; cbn; auto. Qed.

Lemma same_result_trans {A : Type} (x y z : result A) :
  same_result x y -> same_result y z -> same_result x z.
Proof. destruct x, y, z; cbn; try tauto; congruence. Qed.

Lemma parse_triplet_norm (s : string) :
  no_blank_after_slash s = true ->
  same_result (parse_triplet s) (parse_triplet (norm s)).
Proof.
  intros H. unfold parse_triplet.
  rewrite count_char_norm.
  destruct (negb (Nat.eqb (count_char "," s) 2)); [exact I|].
  rewrite split_at_norm.
  destruct (nbas_split_at "," s H) as [Ha Hrest].
  destruct (split_at "," s) as [sa rest]. cbn [fst snd] in *.
  rewrite split_at_norm.
  destruct (nbas_split_at "," rest Hrest) as [Hb Hc].
  destruct (split_at "," rest) as [sb sc]. cbn [fst snd] in *.
  apply same_result_bind; [apply parse_triplet_part_norm; exact Ha|]. intros a.
  apply same_result_bind; [apply parse_triplet_part_norm; exact Hb|]. intros b.
  apply same_result_bind; [apply parse_triplet_part_norm; exact Hc|]. intros c.
  apply same_result_refl.
Qed.

Lemma nbas_norm (s : string) : no_blank_after_slash (norm s) = no_blank_after_slash s.
Proof.
  induction s as [|x s IH]; [reflexivity|].
  cbn. rewrite IH, norm_char_eqb by reflexivity. rewrite deref_norm.
  rewrite (norm_char_pred (fun y => isspace y || is_blank y)) by reflexivity.
  reflexivity.
Qed.

Lemma underscored_norm (s s' : string) : underscored s s' -> norm s = norm s'.
Proof.
  induction 1 as [|c s s' _ IH|c s s' Hc _ IH]; cbn; [reflexivity| |].
  - rewrite IH. reflexivity.
  - rewrite IH. destruct Hc as [-> | ->]; reflexivity.
Qed.

(** C10, as amended.  When no ['/'] of the text is directly followed by a
    blank or white space, replacing spaces and tabs by underscores does not
    change what [parse_triplet] returns: the same [Op], or a failure for
    both texts. *)
Theorem underscore_as_blank (s s' : string) :
  underscored s s' ->
  no_blank_after_slash s = true ->
  same_result (parse_triplet s) (parse_triplet s').
Proof.
  intros Hu Hs.
  pose proof (underscored_norm s s' Hu) as En.
  assert (Hs' : no_blank_after_slash s' = true).
  { rewrite <- nbas_norm, <- En, nbas_norm. exact Hs. }
  apply (same_result_trans _ (parse_triplet (norm s))).
  - apply parse_triplet_norm. exact Hs.
  - rewrite En. apply same_result_sym, parse_triplet_norm. exact Hs'.
Qed.

Lemma underscore_as_blank_witness :
  underscored "x, y, z" "x,_y,_z"
  /\ no_blank_after_slash "x, y, z" = true
  /\ same_result (parse_triplet "x, y, z") (parse_triplet "x,_y,_z").
Proof.
  assert (U : underscored "x, y, z" "x,_y,_z").
  { repeat (first [ apply underscored_nil
                  | apply underscored_keep
                  | apply underscored_blank; [left; reflexivity|] ]). }
  split; [exact U|]. split; [reflexivity|].
  apply (underscore_as_blank _ _ U). reflexivity.
Defined.

(** C10, the claim as stated, fails: with a space after the ['/'] the
    text is parsed (by [strtol], which skips the space), with an underscore
    in its place the text is refused. *)
Lemma underscore_after_slash_differs :
  underscored "x,y,z+1/ 2" "x,y,z+1/_2"
  /\ parse_triplet "x,y,z+1/ 2" = parse_triplet "x,y,z+1/2"
  /\ is_ok (parse_triplet "x,y,z+1/ 2") = true
  /\ parse_triplet "x,y,z+1/_2" = Fail "Wrong denominator 0 in: z+1/_2"
  /\ ~ same_result (parse_triplet "x,y,z+1/ 2") (parse_triplet "x,y,z+1/_2").
Proof.
  split; [|repeat split; try (vm_compute; reflexivity)].
  - repeat (first [ apply underscored_nil
                  | apply underscored_blank; [left; reflexivity|]
                  | apply underscored_keep ]).
  - vm_compute. auto.
Qed.

(** ** The fuel of the parsers is never used up *)

Lemma length_next (c : string) : (String.length (next c) <= String.length c)%nat.
Proof. destruct c; cbn; lia. Qed.

Lemma length_next_lt (c : string) :
  c <> EmptyString -> (String.length (next c) < String.length c)%nat.
Proof. destruct c; cbn; [congruence|lia]. Qed.

Lemma length_skip_blank (c : string) :
  (String.length (skip_blank c) <= String.length c)%nat.
Proof.
  induction c as [|x c IH]; cbn; [lia|]. destruct (is_blank x); cbn; lia.
Qed.

Lemma length_skip_space (c : string) :
  (String.length (skip_space c) <= String.length c)%nat.
Proof.
  induction c as [|x c IH]; cbn; [lia|]. destruct (isspace x); cbn; lia.
Qed.

Lemma length_read_digits (c : string) : forall acc,
  (String.length (snd (read_digits acc c)) <= String.length c)%nat.
Proof.
  induction c as [|x c IH]; intros acc; cbn [read_digits]; [cbn; lia|].
  destruct (is_digit x); [|cbn; lia].
  specialize (IH (10 * acc + (code x - 48))). cbn [String.length]. lia.
Qed.

Lemma length_strtol (c : string) :
  (String.length (snd (strtol c)) <= String.length c)%nat.
Proof.
  unfold strtol.
  pose proof (length_skip_space c) as H1.
  pose proof (length_next (skip_space c)) as H2.
  destruct (char_eqb (deref (skip_space c)) "-");
    [|destruct (char_eqb (deref (skip_space c)) "+")];
    match goal with
    | |- context [is_digit (deref ?p)] =>
        destruct (is_digit (deref p)); [|cbn; lia];
        pose proof (length_read_digits p 0);
        destruct (read_digits 0 p); cbn [snd] in *; lia
    end.
Qed.

Lemma length_strtol_digit (c : string) :
  is_digit (deref c) = true ->
  (String.length (snd (strtol c)) < String.length c)%nat.
Proof.
  intros D. destruct (is_digit_not_blank _ D) as [_ Hs].
  unfold strtol. rewrite (skip_space_id c Hs).
  destruct c as [|x c]; [discriminate|]. cbn [deref] in *.
  assert (char_eqb x "-" = false /\ char_eqb x "+" = false) as [-> ->].
  { split; destruct (char_eqb x _) eqn:E; try reflexivity;
      apply Ascii.eqb_eq in E; subst x; discriminate. }
  cbn [deref]. rewrite D. cbn [read_digits]. rewrite D.
  pose proof (length_read_digits c (10 * 0 + (code x - 48))).
  destruct (read_digits _ c). cbn [snd String.length] in *. lia.
Qed.

Lemma memchr_not_NUL (set : string) (c : string) :
  memchr set NUL = false -> memchr set (deref c) = true -> c <> EmptyString.
Proof. intros H1 H2 ->. cbn in H2. congruence. Qed.

Lemma parse_term_shorter (s : string) (r r' : array4) (num : Z) (c c' : string) :
  parse_term s r num c = Ok (r', c') ->
  (String.length c' < String.length c)%nat.
Proof.
  unfold parse_term, parse_sign.
  assert (L1 : (String.length (skip_blank (next c)) <= String.length c)%nat).
  { pose proof (length_skip_blank (next c)). pose proof (length_next c). lia. }
  set (sc := if char_eqb (deref c) "+" then (DEN, skip_blank (next c))
             else if char_eqb (deref c) "-" then (- DEN, skip_blank (next c))
             else (num, c)).
  assert (L : (String.length (snd sc) <= String.length c)%nat).
  { unfold sc. destruct (char_eqb (deref c) "+"); [exact L1|].
    destruct (char_eqb (deref c) "-"); [exact L1|]. cbn. lia. }
  destruct sc as [num1 c1]. cbn [snd] in L.
  destruct (num1 =? 0); [discriminate|].
  unfold parse_number.
  assert (A : forall n c2, (String.length c2 <= String.length c1)%nat ->
            add_term s r n false c2 = Ok (r', c') ->
            (String.length c' < String.length c)%nat).
  { intros n c2 L2. unfold add_term.
    destruct (memchr "xXhHaA" (deref c2)) eqn:M1;
      [intros [= _ <-];
       pose proof (length_next_lt c2 (memchr_not_NUL "xXhHaA" c2 eq_refl M1)); lia|].
    destruct (memchr "yYkKbB" (deref c2)) eqn:M2;
      [intros [= _ <-];
       pose proof (length_next_lt c2 (memchr_not_NUL "yYkKbB" c2 eq_refl M2)); lia|].
    destruct (memchr "zZlLcC" (deref c2)) eqn:M3;
      [intros [= _ <-];
       pose proof (length_next_lt c2 (memchr_not_NUL "zZlLcC" c2 eq_refl M3)); lia|].
    discriminate. }
  destruct (is_digit (deref c1)) eqn:D; [|cbn [bind]; apply A; lia].
  pose proof (length_strtol_digit c1 D) as L2.
  destruct (strtol c1) as [v endptr]. cbn [snd] in L2.
  assert (B : forall n e, (String.length e < String.length c1)%nat ->
            (if char_eqb (deref e) "*"
             then add_term s r n false (skip_blank (next e))
             else add_term s r n true e) = Ok (r', c') ->
            (String.length c' < String.length c)%nat).
  { intros n e Le. destruct (char_eqb (deref e) "*").
    - apply A. pose proof (length_skip_blank (next e)). pose proof (length_next e). lia.
    - unfold add_term. intros [= _ <-]. lia. }
  destruct (char_eqb (deref endptr) "/").
  - pose proof (length_strtol (next endptr)) as L3.
    pose proof (length_next endptr) as L4.
    destruct (strtol (next endptr)) as [d endptr']. cbn [snd] in L3.
    destruct ((to_int d <? 1) || negb (Z.rem DEN (to_int d) =? 0)); [discriminate|].
    cbn [bind]. intros H. apply (B (Z.quot (to_int (num1 * v)) (to_int d)) endptr'); [lia|].
    destruct (char_eqb (deref endptr') "*"); exact H.
  - cbn [bind]. intros H. apply (B (to_int (num1 * v)) endptr); [lia|].
    destruct (char_eqb (deref endptr) "*"); exact H.
Qed.

Lemma parse_term_no_fuel (s : string) (r : array4) (num : Z) (c : string) :
  parse_term s r num c <> OutOfFuel /\ parse_term s r num c <> Undefined.
Proof.
  unfold parse_term. destruct (parse_sign num c) as [num1 c1].
  destruct (num1 =? 0); [split; discriminate|].
  unfold parse_number.
  assert (A : forall n b c2, add_term s r n b c2 <> OutOfFuel
                             /\ add_term s r n b c2 <> Undefined).
  { intros n b c2. unfold add_term. destruct b; [split; discriminate|].
    destruct (memchr "xXhHaA" (deref c2)); [split; discriminate|].
    destruct (memchr "yYkKbB" (deref c2)); [split; discriminate|].
    destruct (memchr "zZlLcC" (deref c2)); split; discriminate. }
  destruct (is_digit (deref c1)); [|cbn [bind]; apply A].
  destruct (strtol c1) as [v endptr].
  destruct (char_eqb (deref endptr) "/").
  - destruct (strtol (next endptr)) as [d endptr'].
    destruct ((to_int d <? 1) || negb (Z.rem DEN (to_int d) =? 0)); [split; discriminate|].
    cbn [bind]. destruct (char_eqb (deref endptr') "*"); cbn [bind]; apply A.
  - cbn [bind]. destruct (char_eqb (deref endptr) "*"); cbn [bind]; apply A.
Qed.

Lemma parse_triplet_loop_total (fuel : nat) (s : string) :
  forall (r : array4) (num : Z) (c : string),
    (String.length c <= fuel)%nat ->
    parse_triplet_loop fuel s r num c <> OutOfFuel
    /\ parse_triplet_loop fuel s r num c <> Undefined.
Proof.
  induction fuel as [|fuel IH]; intros r num c L; cbn [parse_triplet_loop].
  - destruct c; [|cbn in L; lia]. cbn. destruct (num =? 0); split; discriminate.
  - destruct (char_eqb (deref (skip_blank c)) NUL);
      [destruct (num =? 0); split; discriminate|].
    pose proof (parse_term_no_fuel s r num (skip_blank c)) as [N1 N2].
    destruct (parse_term s r num (skip_blank c)) as [[r1 c1]| | |] eqn:E;
      try congruence; cbn [bind]; [|split; discriminate].
    apply IH. apply parse_term_shorter in E.
    pose proof (length_skip_blank c). lia.
Qed.

(** [parse_triplet] returns an [Op] or fails with a message, on every
    text. *)
Lemma parse_triplet_total (s : string) :
  (exists op, parse_triplet s = Ok op) \/ (exists msg, parse_triplet s = Fail msg).
Proof.
  assert (P : forall t, (exists a, parse_triplet_part t = Ok a)
                        \/ (exists msg, parse_triplet_part t = Fail msg)).
  { intros t. unfold parse_triplet_part.
    destruct (parse_triplet_loop_total (String.length t) t (mk4 0 0 0 0) DEN t (le_n _))
      as [N1 N2].
    destruct (parse_triplet_loop _ _ _ _ _); try congruence; eauto. }
  unfold parse_triplet.
  destruct (negb (Nat.eqb (count_char "," s) 2)); [right; eauto|].
  destruct (split_at "," s) as [sa rest]. destruct (split_at "," rest) as [sb sc].
  destruct (P sa) as [[a ->]|[msg ->]]; cbn [bind]; [|right; eauto].
  destruct (P sb) as [[b ->]|[msg ->]]; cbn [bind]; [|right; eauto].
  destruct (P sc) as [[c ->]|[msg ->]]; cbn [bind]; [|right; eauto].
  left. eauto.
Qed.

(** ** Termination and size of the closure *)


Lemma grows_refl (st : list Op * list Op) : grows st st.
Proof. exists [], []. rewrite !app_nil_r. auto. Qed.

Lemma grows_trans (a b c : list Op * list Op) : grows a b -> grows b c -> grows a c.
Proof.
  intros (l1 & k1 & E1 & F1 & L1 & N1) (l2 & k2 & E2 & F2 & L2 & N2).
  exists (l1 ++ l2), (k1 ++ k2).
  rewrite E2, E1, F2, F1, <- !app_assoc, !length_app.
  repeat split; [lia|].
  intros H. apply app_eq_nil in H. destruct H as [H1 H2].
  rewrite (N1 H1), (N2 H2). reflexivity.
Qed.

Lemma try_generator_grows (init : list Op) (cj : Op) (st : list Op * list Op) (gn : Op) :
  grows st (try_generator init cj st gn).
Proof.
  unfold try_generator. destruct st as [ops coset_repr].
  destruct (find_by_rotation ops (rot (op_mul gn cj))); [apply grows_refl|].
  exists (op_mul gn cj :: map (op_mul (op_mul gn cj)) init), [op_mul gn cj].
  cbn. repeat split; [lia|discriminate].
Qed.

Lemma fold_left_grows {A : Type} (f : list Op * list Op -> A -> list Op * list Op) :
  (forall st x, grows st (f st x)) ->
  forall l st, grows st (fold_left f l st).
Proof.
  intros Hf l. induction l as [|x l IH]; intros st; cbn; [apply grows_refl|].
  eapply grows_trans; [apply Hf|apply IH].
Qed.

Lemma coset_pass_grows (gens init : list Op) (st : list Op * list Op) :
  grows st (coset_pass gens init st).
Proof.
  unfold coset_pass. apply fold_left_grows.
  intros st' cj. apply fold_left_grows. intros st'' gn. apply try_generator_grows.
Qed.


Lemma bounded_from_app (ops l : list Op) (r : result (list Op)) :
  bounded_from (ops ++ l) r -> bounded_from ops r.
Proof.
  intros [H|(l' & H & L)]; [left; exact H|right].
  exists (l ++ l'). rewrite app_assoc. auto.
Qed.

Lemma check_size_cases (ops : list Op) :
  (check_size ops = Fail too_large /\ (1023 < List.length ops)%nat)
  \/ (check_size ops = Ok tt /\ (List.length ops <= 1023)%nat).
Proof.
  unfold check_size. destruct (Nat.ltb_spec 1023 (List.length ops)); auto.
Qed.

Lemma cyclic_loop_bounded (fuel : nat) (s1 : Op) :
  forall (g : Op) (ops : list Op),
    (List.length ops <= 1023)%nat -> (1023 < List.length ops + fuel)%nat ->
    bounded_from ops (cyclic_loop fuel s1 g ops).
Proof.
  induction fuel as [|fuel IH]; intros g ops Hle Hfuel; cbn [cyclic_loop];
    (destruct (rot_eqb (rot g) (rot identity));
     [right; exists []; rewrite app_nil_r; auto|]); [lia|].
  destruct (check_size_cases (ops ++ [g])) as [[-> _]|[-> Hs]]; cbn [bind].
  - left. reflexivity.
  - apply (bounded_from_app ops [g]). apply IH; [exact Hs|].
    rewrite length_app. cbn. lia.
Qed.

Lemma coset_loop_bounded (fuel : nat) (gens init : list Op) :
  forall st : list Op * list Op,
    (List.length (fst st) <= 1023)%nat -> (1023 < List.length (fst st) + fuel)%nat ->
    bounded_from (fst st) (coset_loop fuel gens init st).
Proof.
  induction fuel as [|fuel IH]; intros st Hle Hfuel; cbn [coset_loop]; [lia|].
  destruct (coset_pass_grows gens init st) as (l & k & E & F & L & N).
  set (st' := coset_pass gens init st) in *.
  destruct (Nat.eqb_spec (List.length (snd st)) (List.length (snd st'))) as [Heq|Hne].
  - right. exists []. rewrite app_nil_r.
    assert (k = []).
    { rewrite F, length_app in Heq. destruct k; [reflexivity|cbn in Heq; lia]. }
    rewrite E, (N H), app_nil_r. auto.
  - destruct (check_size_cases (fst st')) as [[-> _]|[-> Hs]]; cbn [bind].
    + left. reflexivity.
    + rewrite E in *. apply (bounded_from_app (fst st) l).
      rewrite <- E in *. apply IH; [exact Hs|].
      assert (k <> []) by (intros ->; rewrite F, app_nil_r in Hne; auto).
      rewrite E, length_app. destruct k; [congruence|cbn in L; lia].
Qed.

Lemma generator_loop_bounded (fuel : nat) (gen : list Op) :
  (1024 <= fuel)%nat ->
  forall (count i : nat) (ops : list Op),
    (List.length ops <= 1023)%nat ->
    bounded_from ops (generator_loop fuel gen i count ops).
Proof.
  intros Hfuel count. induction count as [|count IH]; intros i ops Hle; cbn [generator_loop].
  - right. exists []. rewrite app_nil_r. auto.
  - destruct (coset_loop_bounded fuel (firstn (S i) gen) (skipn 1 ops) (ops, [identity]))
      as [->|(l & -> & L)]; cbn [fst bind]; [exact Hle|lia|left; reflexivity|].
    apply (bounded_from_app ops l). apply IH. exact L.
Qed.

Lemma add_missing_elements_fuel_bounded (fuel : nat) (rest : list Op) :
  (1024 <= fuel)%nat ->
  bounded_from [identity] (add_missing_elements_fuel fuel (identity :: rest)).
Proof.
  intros Hfuel. unfold add_missing_elements_fuel.
  replace (op_eqb identity identity) with true by reflexivity. cbn [negb].
  destruct rest as [|s1 rest'].
  - right. exists []. cbn. split; [reflexivity|lia].
  - apply (bounded_from_app [identity] [s1]). cbn [app].
    destruct (cyclic_loop_bounded fuel s1 (op_mul s1 s1) [identity; s1])
      as [->|(l & -> & L)]; cbn [bind]; [cbn; lia|cbn; lia|left; reflexivity|].
    apply (bounded_from_app [identity; s1] l).
    apply generator_loop_bounded; assumption.
Qed.

Lemma distinct_rots_sound (l : list Op) :
  distinct_rots l = true -> NoDup (map rot l).
Proof.
  induction l as [|x l IH]; cbn; [constructor|].
  intros H. apply andb_true_iff in H. destruct H as [Hx Hl].
  constructor; [|apply IH; exact Hl].
  intros Hin. apply in_map_iff in Hin. destruct Hin as (y & Ey & Hy).
  apply negb_true_iff in Hx.
  assert (existsb (fun y => rot_eqb (rot x) (rot y)) l = true).
  { apply existsb_exists. exists y. split; [exact Hy|].
    rewrite Ey. apply rot_eqb_refl. }
  congruence.
Qed.

Lemma closure_table : forallb closure_entry Tables_.main = true.
Proof. vm_compute. reflexivity. Qed.

(** C4, as amended.  For every generator list that starts with the
    identity, [add_missing_elements] ends (the fuel of the model is never
    used up): it fails with the error of [check_size], or it returns at
    most 1023 operations, the identity still the first.  The rotation parts
    of the result are pairwise distinct for the generators of every Hall
    symbol of the table. *)
Theorem closure_terminates :
  (forall (g : GroupOps) (rest : list Op),
      sym_ops g = identity :: rest ->
      add_missing_elements g = Fail too_large
      \/ exists ops, add_missing_elements g = Ok (mkGroupOps ops (cen_ops g))
                     /\ (List.length ops <= 1023)%nat
                     /\ nth_error ops 0 = Some identity)
  /\ Forall (fun sg =>
               exists g0 g, generators_from_hall (hall sg) = Ok g0
                            /\ add_missing_elements g0 = Ok g
                            /\ NoDup (map rot (sym_ops g)))
            Tables_.main.
Proof.
  split.
  - intros g rest Hg. unfold add_missing_elements. rewrite Hg.
    destruct (add_missing_elements_fuel_bounded closure_fuel rest) as [->|(l & -> & L)];
      [unfold closure_fuel; lia|left; reflexivity|right].
    exists ([identity] ++ l). cbn [bind]. repeat split. exact L.
  - apply Forall_forall. intros sg Hsg.
    pose proof (proj1 (forallb_forall _ _) closure_table sg Hsg) as H.
    unfold closure_entry in H.
    destruct (generators_from_hall (hall sg)) as [g0| | |]; try discriminate.
    destruct (add_missing_elements g0) as [g| | |] eqn:Eg; try discriminate.
    exists g0, g. repeat split; [exact Eg|]. apply distinct_rots_sound. exact H.
Qed.

Lemma closure_terminates_witness :
  let g := mkGroupOps [identity; mkOp (mkRot (-24) 0 0  0 (-24) 0  0 0 24) (mk3 0 0 12)]
                      [mk3 0 0 0] in
  sym_ops g = identity :: tl (sym_ops g)
  /\ (add_missing_elements g = Fail too_large
      \/ exists ops, add_missing_elements g = Ok (mkGroupOps ops (cen_ops g))
                     /\ (List.length ops <= 1023)%nat
                     /\ nth_error ops 0 = Some identity).
Proof.
  intro g. split; [reflexivity|].
  apply (proj1 closure_terminates g (tl (sym_ops g))). reflexivity.
Defined.

(** C4, the claim as stated, fails: the generator list of the identity
    taken twice is returned as it is, with two equal rotation parts. *)
Lemma closure_keeps_duplicate_rotation :
  let g := mkGroupOps [identity; identity] [mk3 0 0 0] in
  add_missing_elements g = Ok g /\ ~ NoDup (map rot (sym_ops g)).
Proof.
  intro g. split; [vm_compute; reflexivity|].
  intros H. inversion H as [|x l Hin _]. apply Hin. left. reflexivity.
Qed.

(** ** Lookup by name *)

Lemma at_char_skip_blank (a : string) : at_char (skip_blank a).
Proof.
  unfold at_char. induction a as [|x a IH]; [reflexivity|].
  cbn. destruct (is_blank x) eqn:E; [exact IH|exact E].
Qed.

Lemma significant_skip_blank (a : string) :
  significant (skip_blank a) = significant a.
Proof.
  induction a as [|x a IH]; [reflexivity|].
  cbn [skip_blank]. destruct (is_blank x) eqn:E; [|reflexivity].
  cbn [significant]. rewrite E, IH.
  destruct (char_eqb x NUL) eqn:N; [|reflexivity].
  apply Ascii.eqb_eq in N. subst x. discriminate.
Qed.

Lemma deref_significant (a : string) :
  at_char a -> deref (significant a) = deref a.
Proof.
  unfold at_char. destruct a as [|x a]; cbn; [reflexivity|].
  intros ->. destruct (char_eqb x NUL) eqn:N; [|reflexivity].
  apply Ascii.eqb_eq in N. subst x. reflexivity.
Qed.

Lemma significant_step (a : string) :
  at_char a -> char_eqb (deref a) NUL = false ->
  significant (skip_blank (next a)) = next (significant a).
Proof.
  unfold at_char. rewrite significant_skip_blank.
  destruct a as [|x a]; cbn; [discriminate|].
  intros -> ->. reflexivity.
Qed.

Lemma deref_same (a a' : string) :
  at_char a -> at_char a' -> significant a = significant a' -> deref a = deref a'.
Proof.
  intros H H' E. rewrite <- (deref_significant a H), <- (deref_significant a' H'), E.
  reflexivity.
Qed.

Lemma step_same (a a' : string) :
  at_char a -> at_char a' -> significant a = significant a' ->
  char_eqb (deref a) NUL = false ->
  significant (skip_blank (next a)) = significant (skip_blank (next a')).
Proof.
  intros H H' E N.
  rewrite (significant_step a H N), (significant_step a' H'), E; [reflexivity|].
  rewrite <- (deref_same a a' H H' E). exact N.
Qed.

Lemma match_hm_same (fuel : nat) :
  forall a a' b : string,
    at_char a -> at_char a' -> significant a = significant a' ->
    snd (match_hm fuel a b) = snd (match_hm fuel a' b)
    /\ at_char (fst (match_hm fuel a b))
    /\ at_char (fst (match_hm fuel a' b))
    /\ significant (fst (match_hm fuel a b)) = significant (fst (match_hm fuel a' b)).
Proof.
  induction fuel as [|fuel IH]; intros a a' b H H' E; cbn [match_hm]; [auto|].
  rewrite <- (deref_same a a' H H' E).
  destruct (char_eqb (deref a) (deref b) && negb (char_eqb (deref b) NUL)) eqn:C;
    [|auto].
  apply IH; try apply at_char_skip_blank.
  apply step_same; try assumption.
  apply andb_true_iff in C. destruct C as [C1 C2].
  apply Ascii.eqb_eq in C1. rewrite C1. apply negb_true_iff. exact C2.
Qed.

Lemma matches_full_same (hm_ : string) (ext_ : ascii) (p p' : string) :
  at_char p -> at_char p' -> significant p = significant p' ->
  char_eqb (deref p) NUL = false ->
  matches_full hm_ ext_ p = matches_full hm_ ext_ p'.
Proof.
  intros H H' E N. unfold matches_full.
  pose proof (match_hm_same (String.length hm_)
                (skip_blank (next p)) (skip_blank (next p'))
                (skip_blank (advance hm_ 3))
                (at_char_skip_blank _) (at_char_skip_blank _)
                (step_same p p' H H' E N)) as (Eb & Ha & Ha' & Ea).
  destruct (match_hm (String.length hm_) (skip_blank (next p))
                     (skip_blank (advance hm_ 3))) as [a b].
  destruct (match_hm (String.length hm_) (skip_blank (next p'))
                     (skip_blank (advance hm_ 3))) as [a' b'].
  cbn [fst snd] in *. subst b'.
  rewrite <- (deref_same a a' Ha Ha' Ea).
  destruct (char_eqb (deref b) NUL); [|reflexivity]. cbn [andb].
  destruct (char_eqb (deref a) NUL) eqn:Na; [reflexivity|]. cbn [orb].
  destruct (char_eqb (deref a) ":"); [|reflexivity]. cbn [andb].
  rewrite (deref_same (skip_blank (next a)) (skip_blank (next a'))); auto using at_char_skip_blank.
  apply step_same; assumption.
Qed.

(** The relation between the outcomes of [match_short] on two spellings. *)
Lemma match_short_same (b : string) :
  forall a a' : string,
    at_char a -> at_char a' -> significant a = significant a' ->
    match match_short a b, match_short a' b with
    | Ok (a1, b1), Ok (a1', b1') => b1 = b1' /\ deref a1 = deref a1'
    | Undefined, Undefined => True
    | _, _ => False
    end.
Proof.
  induction b as [|cb b IH]; intros a a' H H' E; cbn [match_short];
    rewrite <- (deref_same a a' H H' E).
  - destruct (char_eqb (deref a) NUL); [exact I|].
    split; [reflexivity|apply deref_same; assumption].
  - destruct (char_eqb (deref a) cb && negb (char_eqb cb " ")) eqn:C.
    + destruct (char_eqb cb NUL) eqn:N; [exact I|].
      apply IH; try apply at_char_skip_blank.
      apply step_same; try assumption.
      apply andb_true_iff in C. destruct C as [C1 _].
      apply Ascii.eqb_eq in C1. rewrite C1. exact N.
    + split; [reflexivity|apply deref_same; assumption].
Qed.

Lemma name_matches_same (first : ascii) (p p' : string) (sg : SpaceGroup) :
  at_char p -> at_char p' -> significant p = significant p' ->
  name_matches first p sg = name_matches first p' sg.
Proof.
  intros H H' E. unfold name_matches.
  rewrite <- (deref_same p p' H H' E).
  destruct (char_eqb (char_at (hm sg) 0) first && char_eqb (char_at (hm sg) 2) (deref p)).
  - destruct (char_eqb (deref p) NUL) eqn:N; [reflexivity|].
    rewrite (matches_full_same _ _ p p' H H' E N). reflexivity.
  - destruct (char_eqb (char_at (hm sg) 0) first && char_eqb (char_at (hm sg) 2) "1"
              && char_eqb (char_at (hm sg) 3) " " && negb (char_eqb (char_at (hm sg) 4) "1"));
      [|reflexivity].
    pose proof (match_short_same (advance (hm sg) 4) (skip_blank p) (skip_blank p')
                  (at_char_skip_blank _) (at_char_skip_blank _)) as M.
    rewrite !significant_skip_blank in M. specialize (M E).
    destruct (match_short (skip_blank p) (advance (hm sg) 4)) as [[a b]| | |];
      destruct (match_short (skip_blank p') (advance (hm sg) 4)) as [[a' b']| | |];
      try contradiction; try reflexivity.
    cbn [bind]. destruct M as [-> ->]. reflexivity.
Qed.

Lemma find_main_same (first : ascii) (p p' : string) :
  at_char p -> at_char p' -> significant p = significant p' ->
  forall (l : list SpaceGroup) (i : nat),
    find_main first p l i = find_main first p' l i.
Proof.
  intros H H' E l. induction l as [|sg l IH]; intros i; cbn [find_main]; [reflexivity|].
  rewrite (name_matches_same first p p' sg H H' E).
  destruct (name_matches first p' sg) as [[|]| | |]; cbn [bind]; auto.
Qed.

Lemma alt_matches_same (first : ascii) (p p' : string) (sg : SpaceGroupAltName) :
  at_char p -> at_char p' -> significant p = significant p' ->
  alt_matches first p sg = alt_matches first p' sg.
Proof.
  intros H H' E. unfold alt_matches.
  rewrite <- (deref_same p p' H H' E).
  destruct (char_eqb (char_at (alt_hm sg) 0) first
            && char_eqb (char_at (alt_hm sg) 2) (deref p)); [|reflexivity].
  destruct (char_eqb (deref p) NUL) eqn:N; [reflexivity|].
  rewrite (matches_full_same _ _ p p' H H' E N). reflexivity.
Qed.

Lemma find_alt_same (first : ascii) (p p' : string) :
  at_char p -> at_char p' -> significant p = significant p' ->
  forall l : list SpaceGroupAltName, find_alt first p l = find_alt first p' l.
Proof.
  intros H H' E l. induction l as [|sg l IH]; cbn [find_alt]; [reflexivity|].
  rewrite (alt_matches_same first p p' sg H H' E).
  destruct (alt_matches first p' sg) as [[|]| | |]; cbn [bind]; auto.
Qed.

Lemma clear_bit5_NUL (c : ascii) :
  char_eqb (clear_bit5 c) NUL = false -> char_eqb c NUL = false.
Proof.
  destruct (char_eqb c NUL) eqn:N; [|reflexivity].
  apply Ascii.eqb_eq in N. subst c. cbn. auto.
Qed.

(** The lookup of a name that does not start with a digit depends on its
    significant characters only. *)
Lemma lookup_name_same (n n' : string) :
  significant n = significant n' ->
  is_digit (deref (significant n)) = false ->
  lookup_name n = lookup_name n'.
Proof.
  intros E D. unfold lookup_name.
  pose proof (at_char_skip_blank n) as H.
  pose proof (at_char_skip_blank n') as H'.
  assert (Es : significant (skip_blank n) = significant (skip_blank n'))
    by (rewrite !significant_skip_blank; exact E).
  rewrite <- (deref_same _ _ H H' Es).
  rewrite <- significant_skip_blank, (deref_significant _ H) in D.
  rewrite D.
  destruct (char_eqb (clear_bit5 (deref (skip_blank n))) NUL) eqn:N; [reflexivity|].
  apply clear_bit5_NUL in N.
  pose proof (step_same _ _ H H' Es N) as E2.
  rewrite (find_main_same _ _ _ (at_char_skip_blank _) (at_char_skip_blank _) E2).
  rewrite (find_alt_same _ _ _ (at_char_skip_blank _) (at_char_skip_blank _) E2).
  reflexivity.
Qed.

Lemma significant_idem (s : string) : significant (significant s) = significant s.
Proof.
  induction s as [|x s IH]; [reflexivity|].
  cbn. destruct (char_eqb x NUL) eqn:N; [reflexivity|].
  destruct (is_blank x) eqn:B; [exact IH|].
  cbn. rewrite N, B, IH. reflexivity.
Qed.

Lemma deref_significant_H (s : string) :
  char_eqb (deref s) "H" = true -> char_eqb (deref (significant s)) "H" = true.
Proof.
  destruct s as [|x s]; cbn; [discriminate|].
  intros Hx. apply Ascii.eqb_eq in Hx. subst x. reflexivity.
Qed.

Lemma lookup_check_sound (j : option nat) (name : string) :
  lookup_check j (significant name) = true ->
  find_spacegroup_by_name name = Ok j.
Proof.
  unfold lookup_check. rewrite !andb_true_iff, !negb_true_iff.
  intros [[NH ND] L].
  assert (NH' : char_eqb (deref name) "H" = false).
  { destruct (char_eqb (deref name) "H") eqn:E; [|reflexivity].
    apply deref_significant_H in E. congruence. }
  unfold find_spacegroup_by_name in *. rewrite NH in L. rewrite NH'.
  rewrite (lookup_name_same name (significant name));
    [|symmetry; apply significant_idem|exact ND].
  destruct (lookup_name (significant name)) as [[a|]| | |], j as [b|];
    try discriminate; [|reflexivity].
  cbn in L. apply Nat.eqb_eq in L. subst. reflexivity.
Qed.

Lemma lookup_table : forallb lookup_entry Tables_.main = true.
Proof. vm_compute. reflexivity. Qed.

(** C8, as amended.  For every entry of the main table, a name that differs
    from the Hermann-Mauguin symbol of the entry only in its blanks and in
    the case of the first letter is found, and the entry returned is the
    first one of the table with that symbol. *)
Theorem find_by_name_spelling (i : nat) (sg : SpaceGroup) (name : string) :
  nth_error Tables_.main i = Some sg ->
  spells name (hm sg) ->
  find_spacegroup_by_name name = Ok (first_with_hm (hm sg)).
Proof.
  intros Hi Hs.
  pose proof (proj1 (forallb_forall _ _) lookup_table sg (nth_error_In _ _ Hi)) as H.
  unfold lookup_entry in H. apply andb_true_iff in H. destruct H as [H1 H2].
  apply lookup_check_sound.
  destruct Hs as [-> | ->]; assumption.
Qed.

Lemma find_by_name_spelling_witness :
  exists sg,
    nth_error Tables_.main 17 = Some sg
    /\ spells "p1_m  1" (hm sg)
    /\ find_spacegroup_by_name "p1_m  1" = Ok (first_with_hm (hm sg))
    /\ first_with_hm (hm sg) = Some 17%nat.
Proof.
  eexists. split; [reflexivity|].
  split; [right; reflexivity|].
  split; [|reflexivity].
  apply (find_by_name_spelling 17); [reflexivity|right; reflexivity].
Defined.

(** C8, the claim as stated, fails: after the first letter the case is
    compared as it is, and of the entries that share a symbol the first is
    returned. *)
Lemma find_by_name_case_and_duplicates :
  (exists sg, nth_error Tables_.main 17 = Some sg /\ hm sg = "P 1 m 1"
              /\ find_spacegroup_by_name "P 1 M 1" = Ok None)
  /\ (exists sg, nth_error Tables_.main 228 = Some sg /\ hm sg = "P n n n"
                 /\ find_spacegroup_by_name (hm sg) = Ok (Some 227%nat)).
Proof.
  split; eexists; (split; [reflexivity|]); split; try reflexivity; vm_compute; reflexivity.
Qed.

(** ** [symops_from_hall] ends on every text *)

Lemma ended_bind {A B : Type} (m : result A) (k : A -> result B) :
  ended m -> (forall a, m = Ok a -> ended (k a)) -> ended (bind m k).
Proof.
  unfold ended. intros Hm Hk. destruct m; cbn; try congruence. apply Hk. reflexivity.
Qed.

Lemma hall_translation_ended (c : ascii) : ended (hall_translation_from_symbol c).
Proof.
  unfold ended. destruct c as [[] [] [] [] [] [] [] []]; discriminate.
Qed.

Lemma centring_vectors_ended (c : ascii) : ended (centring_vectors c).
Proof.
  unfold ended. destruct c as [[] [] [] [] [] [] [] []]; discriminate.
Qed.

Lemma hall_rotation_z_ended (N : Z) : ended (hall_rotation_z N).
Proof.
  unfold ended, hall_rotation_z.
  repeat match goal with
         | |- context [if ?b then _ else _] => destruct b; [discriminate|]
         end.
  discriminate.
Qed.

Lemma hall_scan_ended (tok : string) (N : Z) (p : string) :
  forall st, ended (hall_scan tok N p st).
Proof.
  induction p as [|c p IH]; intros st; cbn [hall_scan]; [discriminate|].
  apply ended_bind; [|intros; apply IH].
  unfold hall_scan_char.
  destruct ((code "1" <=? code c) && (code c <=? code "5"));
    [destruct (negb (fractional_tran st =? 0)); discriminate|].
  destruct (char_eqb c APOS || char_eqb c DQUOTE || char_eqb c "*");
    [destruct (negb (N =? (if char_eqb c "*" then 3 else 2))); discriminate|].
  destruct (char_eqb c "x" || char_eqb c "y" || char_eqb c "z"); [discriminate|].
  apply ended_bind; [apply hall_translation_ended|discriminate].
Qed.

Lemma hall_matrix_symbol_ended (tok : string) (pos prev : Z) :
  ended (hall_matrix_symbol tok pos prev).
Proof.
  unfold hall_matrix_symbol.
  match goal with
  | |- context [if ?b then Fail _ else _] => destruct b; [discriminate|]
  end.
  apply ended_bind; [apply hall_scan_ended|]. intros st _.
  apply ended_bind.
  - repeat match goal with
           | |- ended (if ?b then _ else _) => destruct b
           end; discriminate.
  - intros [principal diagonal] _.
    apply ended_bind; [apply hall_rotation_z_ended|]. intros r _.
    repeat match goal with
           | |- ended (if ?b then _ else _) => destruct b
           end; discriminate.
Qed.

Lemma length_find_blank (p : string) :
  (String.length (snd (find_blank p)) <= String.length p)%nat
  /\ (char_eqb (deref p) NUL = false -> is_blank (deref p) = false ->
      (String.length (snd (find_blank p)) < String.length p)%nat).
Proof.
  induction p as [|c p [IH _]]; cbn [find_blank deref]; [cbn; split; [lia|discriminate]|].
  destruct (char_eqb c NUL || is_blank c) eqn:E.
  - cbn. split; [lia|]. intros H1 H2. rewrite H1, H2 in E. discriminate.
  - destruct (find_blank p) as [tok rest]. cbn [snd String.length] in *. split; lia.
Qed.

Lemma hall_parts_spec (fuel : nat) :
  forall (part : string) (counter prev : Z) (ops : list Op),
    (String.length part <= fuel)%nat -> is_blank (deref part) = false ->
    ended (hall_parts fuel part counter prev ops)
    /\ forall ops' part', hall_parts fuel part counter prev ops = Ok (ops', part') ->
                          exists l, ops' = ops ++ l.
Proof.
  induction fuel as [|fuel IH]; intros part counter prev ops L B; cbn [hall_parts].
  - destruct part; [|cbn in L; lia]. cbn. split; [discriminate|].
    intros ops' part' [= <- _]. exists []. rewrite app_nil_r. reflexivity.
  - destruct (char_eqb (deref part) NUL || char_eqb (deref part) "(") eqn:E.
    + split; [discriminate|].
      intros ops' part' [= <- _]. exists []. rewrite app_nil_r. reflexivity.
    + apply orb_false_iff in E. destruct E as [E _].
      pose proof (proj2 (length_find_blank part) E B) as Lf.
      destruct (find_blank part) as [tok space]. cbn [snd] in Lf.
      assert (Ls : (String.length (skip_blank space) <= fuel)%nat)
        by (pose proof (length_skip_blank space); lia).
      pose proof (at_char_skip_blank space) as Bs.
      set (step := if negb (char_eqb (deref part) "1")
                      || negb (char_eqb (deref (next part)) " ")
                         && negb (char_eqb (deref (next part)) NUL)
                   then _ else _).
      assert (Hstep : ended step
                /\ forall ops1 prev1, step = Ok (ops1, prev1) -> exists l, ops1 = ops ++ l).
      { unfold step.
        destruct (negb (char_eqb (deref part) "1")
                  || negb (char_eqb (deref (next part)) " ")
                     && negb (char_eqb (deref (next part)) NUL)).
        - pose proof (hall_matrix_symbol_ended tok (counter + 1) prev) as Hm.
          destruct (hall_matrix_symbol tok (counter + 1) prev) as [[op pr]| | |];
            cbn [bind]; split; try discriminate; try (exfalso; apply Hm; reflexivity).
          intros ops1 prev1 [= <- _]. eauto.
        - split; [discriminate|]. intros ops1 prev1 [= <- _].
          exists []. rewrite app_nil_r. reflexivity. }
      destruct Hstep as [Hs1 Hs2].
      destruct step as [[ops1 prev1]| | |]; cbn [bind];
        try (split; [discriminate|discriminate]); [|exfalso; apply Hs1; reflexivity].
      destruct (Hs2 ops1 prev1 eq_refl) as [l1 ->].
      destruct (IH (skip_blank space) (counter + 1) prev1 (ops ++ l1) Ls Bs) as [I1 I2].
      split; [exact I1|].
      intros ops' part' H. destruct (I2 ops' part' H) as [l2 ->].
      exists (l1 ++ l2). rewrite app_assoc. reflexivity.
Qed.

Lemma change_basis_spec (g : GroupOps) (cob : Op) :
  ended (change_basis g cob)
  /\ forall g' rest, change_basis g cob = Ok g' -> sym_ops g = identity :: rest ->
                     exists rest', sym_ops g' = identity :: rest'.
Proof.
  unfold change_basis.
  destruct (sym_ops g) as [|s0 ss] eqn:Es.
  { split; [discriminate|]. intros g' rest [= <-]. rewrite Es. discriminate. }
  destruct (cen_ops g) as [|c0 cs].
  { split; [discriminate|]. intros g' rest [= <-]. rewrite Es. eauto. }
  unfold inverse. destruct (det_rot cob =? 0); cbn [bind]; split; try discriminate.
  intros g' rest [= <-] [= -> _]. cbn [sym_ops]. eauto.
Qed.

Lemma parse_hall_change_of_basis_ended (start end_ : string) :
  ended (parse_hall_change_of_basis start end_).
Proof.
  unfold parse_hall_change_of_basis, ended.
  destruct (memchr (between start end_) ",").
  - destruct (parse_triplet_total (between start end_)) as [[op ->]|[msg ->]];
      discriminate.
  - destruct (strtol start) as [v0 e0], (strtol e0) as [v1 e1], (strtol e1) as [v2 e2].
    destruct (negb (Nat.eqb (String.length e2) (String.length end_)));
      [destruct (String.length e2 <? String.length end_)%nat|]; discriminate.
Qed.

Lemma generators_from_hall_spec (hall_ : string) :
  ended (generators_from_hall hall_)
  /\ forall g, generators_from_hall hall_ = Ok g ->
               exists rest, sym_ops g = identity :: rest.
Proof.
  unfold generators_from_hall.
  set (h := skip_blank hall_).
  set (ops0 := if char_eqb (deref h) "-" then [identity; negated identity] else [identity]).
  assert (H0 : exists rest0, ops0 = identity :: rest0)
    by (unfold ops0; destruct (char_eqb (deref h) "-"); eauto).
  destruct H0 as [rest0 H0].
  set (lat := skip_blank (if char_eqb (deref h) "-" then next h else h)).
  pose proof (centring_vectors_ended (deref lat)) as Hc.
  destruct (centring_vectors (deref lat)) as [cen| | |]; cbn [bind];
    try (split; [discriminate|discriminate]); [|exfalso; apply Hc; reflexivity].
  destruct (hall_parts_spec (String.length lat) (skip_blank (next lat)) 0 0 ops0)
    as [Hp1 Hp2];
    [pose proof (length_skip_blank (next lat)); pose proof (length_next lat); lia
    |apply at_char_skip_blank|].
  destruct (hall_parts _ _ _ _ _) as [[ops part]| | |]; cbn [bind];
    try (split; [discriminate|discriminate]); [|exfalso; apply Hp1; reflexivity].
  destruct (Hp2 ops part eq_refl) as [l ->]. rewrite H0. cbn [app].
  destruct (char_eqb (deref part) "(");
    [|split; [discriminate|intros g [= <-]; cbn; eauto]].
  destruct (strchr part ")") as [rb|]; [|split; discriminate].
  pose proof (parse_hall_change_of_basis_ended (next part) rb) as Hcob.
  destruct (parse_hall_change_of_basis (next part) rb) as [cob| | |]; cbn [bind];
    try (split; [discriminate|discriminate]); [|exfalso; apply Hcob; reflexivity].
  destruct (change_basis_spec (mkGroupOps (identity :: rest0 ++ l) cen) cob) as [Hb1 Hb2].
  destruct (change_basis _ cob) as [g'| | |]; cbn [bind];
    try (split; [discriminate|discriminate]); [|exfalso; apply Hb1; reflexivity].
  destruct (negb _); split; try discriminate.
  intros g [= <-]. apply (Hb2 g' (rest0 ++ l)); reflexivity.
Qed.

(** [symops_from_hall] returns a group, fails with a message or is
    undefined; the fuel of its loops is never used up. *)
Lemma symops_from_hall_ended (hall_ : string) : ended (symops_from_hall hall_).
Proof.
  unfold symops_from_hall.
  destruct (generators_from_hall_spec hall_) as [H1 H2].
  apply ended_bind; [exact H1|]. intros g Hg.
  destruct (H2 g Hg) as [rest Hr].
  unfold add_missing_elements, ended. rewrite Hr.
  destruct (add_missing_elements_fuel_bounded closure_fuel rest) as [->|(l & -> & _)];
    [unfold closure_fuel; lia| |]; discriminate.
Qed.

(** ** The reciprocal-space asymmetric unit *)

Lemma hkl_image_exact (q : Rot) (m : Miller) :
  hkl_image (map3 (map3 (fun x => x * DEN)) q) m
  = build3 (fun i => rc q 0 i * nth3 m 0 + rc q 1 i * nth3 m 1 + rc q 2 i * nth3 m 2).
Proof.
  destruct q as [[q00 q01 q02] [q10 q11 q12] [q20 q21 q22]], m as [h k l].
  unfold hkl_image, build3, rc, nth3, map3. cbn [at0 at1 at2].
  f_equal;
    match goal with
    | |- Z.quot ?a DEN = ?b => replace a with (b * DEN) by ring
    end; apply Z.quot_mul; discriminate.
Qed.

Lemma prepare_sound (R r : Rot) (p : Rot * Rot) :
  prepare R r = Some p ->
  fst p = r /\ forall m, mat_vec (snd p) m = mat_vec R (hkl_image r m).
Proof.
  unfold prepare.
  destruct (rot_eqb r _) eqn:E; [|discriminate].
  apply rot_eqb_eq in E. intros [= <-]. split; [reflexivity|].
  intros m. rewrite E at 2. rewrite hkl_image_exact.
  set (q := map3 (map3 (fun x => Z.quot x DEN)) r). clearbody q. clear E.
  destruct q as [[q00 q01 q02] [q10 q11 q12] [q20 q21 q22]], m as [h k l],
           R as [[a00 a01 a02] [a10 a11 a12] [a20 a21 a22]].
  unfold mat_vec, build3, rc, nth3. cbn [at0 at1 at2 snd].
  f_equal; ring.
Qed.

Lemma prepare_all_sound (R : Rot) (rots : list Rot) :
  forall ps, prepare_all R rots = Some ps ->
    map fst ps = rots
    /\ Forall (fun p => forall m, mat_vec (snd p) m = mat_vec R (hkl_image (fst p) m)) ps.
Proof.
  induction rots as [|r rots IH]; intros ps; cbn [prepare_all].
  - intros [= <-]. split; [reflexivity|constructor].
  - destruct (prepare R r) as [p|] eqn:Ep; [|discriminate].
    destruct (prepare_all R rots) as [ps'|]; [|discriminate].
    intros [= <-]. destruct (prepare_sound R r p Ep) as [E1 E2].
    destruct (IH ps' eq_refl) as [I1 I2].
    split; [cbn; congruence|].
    constructor; [rewrite E1; exact E2|exact I2].
Qed.

Lemma mat_vec_neg (R : Rot) (t : Miller) :
  mat_vec R (neg_hkl t) = neg_hkl (mat_vec R t).
Proof.
  destruct t as [h k l], R as [[a00 a01 a02] [a10 a11 a12] [a20 a21 a22]].
  unfold mat_vec, neg_hkl, build3, map3, rc, nth3. cbn [at0 at1 at2].
  f_equal; ring.
Qed.

Lemma neg_hkl_involutive (t : Miller) : neg_hkl (neg_hkl t) = t.
Proof.
  destruct t as [h k l]. unfold neg_hkl, map3. cbn [at0 at1 at2].
  rewrite !Z.opp_involutive. reflexivity.
Qed.

Lemma hkl_image_neg (r : Rot) (m : Miller) :
  hkl_image r (neg_hkl m) = neg_hkl (hkl_image r m).
Proof.
  destruct m as [h k l], r as [[a00 a01 a02] [a10 a11 a12] [a20 a21 a22]].
  unfold hkl_image, neg_hkl, build3, map3, rc, nth3. cbn [at0 at1 at2].
  f_equal;
    (rewrite <- Z.quot_opp_l by discriminate; f_equal; ring).
Qed.

Lemma in_friedel_images_neg (rots : list Rot) (m t : Miller) :
  in_friedel_images rots (neg_hkl m) t <-> in_friedel_images rots m t.
Proof.
  unfold in_friedel_images. split; intros (r & Hr & H); exists r; (split; [exact Hr|]);
    rewrite hkl_image_neg in *; try rewrite neg_hkl_involutive in *; tauto.
Qed.

Section Members.

Variables (i : Z) (R : Rot) (ps : list (Rot * Rot)).
Hypothesis prepared :
  Forall (fun p => forall m, mat_vec (snd p) m = mat_vec R (hkl_image (fst p) m)) ps.

Lemma asu_members_spec (m t : Miller) :
  In t (asu_members i ps m)
  <-> in_friedel_images (map fst ps) m t /\ in_ref i (mat_vec R t) = true.
Proof.
  unfold asu_members, in_friedel_images. rewrite in_flat_map. split.
  - intros (p & Hp & Hin).
    pose proof (proj1 (Forall_forall _ _) prepared p Hp m) as E.
    apply in_app_or in Hin. destruct Hin as [Hin|Hin].
    + destruct (in_ref i (mat_vec (snd p) m)) eqn:T; [|contradiction].
      destruct Hin as [<-|[]]. split.
      * exists (fst p). split; [apply in_map; exact Hp|left; reflexivity].
      * rewrite <- E. exact T.
    + destruct (in_ref i (neg_hkl (mat_vec (snd p) m))) eqn:T; [|contradiction].
      destruct Hin as [<-|[]]. split.
      * exists (fst p). split; [apply in_map; exact Hp|right; reflexivity].
      * rewrite mat_vec_neg, <- E. exact T.
  - intros [(r & Hr & Ht) T].
    apply in_map_iff in Hr. destruct Hr as (p & <- & Hp).
    pose proof (proj1 (Forall_forall _ _) prepared p Hp m) as E.
    exists p. split; [exact Hp|]. apply in_or_app.
    destruct Ht as [-> | ->].
    + left. rewrite E, T. left. reflexivity.
    + right. rewrite mat_vec_neg, <- E in T. rewrite T. left. reflexivity.
Qed.

Lemma check_point_sound (m : Miller) :
  check_point i ps m = true ->
  exists! t, in_friedel_images (map fst ps) m t /\ in_ref i (mat_vec R t) = true.
Proof.
  unfold check_point. intros H.
  pose proof (asu_members_spec m) as S.
  destruct (asu_members i ps m) as [|c rest]; [discriminate|].
  exists c. split.
  - apply S. left. reflexivity.
  - intros t Ht. apply S in Ht. destruct Ht as [Ht|Ht]; [exact Ht|].
    apply tran_eqb_eq. exact (proj1 (forallb_forall _ _) H t Ht).
Qed.

End Members.

Lemma in_range8 (z : Z) : -8 <= z <= 8 -> In z range8.
Proof.
  intros H. unfold range8. apply in_map_iff.
  exists (Z.to_nat (z + 8)). split; [lia|]. apply in_seq. lia.
Qed.

Lemma in_cube (m : Miller) : cube8 m -> In m cube.
Proof.
  destruct m as [h k l]. unfold cube8. cbn [at0 at1 at2]. intros (Hh & Hk & Hl).
  unfold cube. apply in_flat_map. exists h. split; [apply in_range8; exact Hh|].
  apply in_flat_map. exists k. split; [apply in_range8; exact Hk|].
  apply in_map. apply in_range8. exact Hl.
Qed.

Lemma in_half_neg (m : Miller) : in_half m = false -> in_half (neg_hkl m) = true.
Proof.
  destruct m as [h k l]. unfold in_half, neg_hkl, map3. cbn [at0 at1 at2].
  rewrite !orb_false_iff, !andb_false_iff, !orb_false_iff, !andb_false_iff.
  rewrite !orb_true_iff, !andb_true_iff, !orb_true_iff, !andb_true_iff.
  rewrite !Z.gtb_ltb, !Z.geb_leb, !Z.ltb_lt, !Z.ltb_ge, !Z.eqb_eq, !Z.eqb_neq,
    !Z.leb_le, !Z.leb_gt.
  lia.
Qed.

Lemma cube8_neg (m : Miller) : cube8 m -> cube8 (neg_hkl m).
Proof.
  destruct m as [h k l]. unfold cube8, neg_hkl, map3. cbn [at0 at1 at2]. lia.
Qed.

Lemma asu_check_sound (i : Z) (R : Rot) (rots : list Rot) :
  asu_check (Some (i, R, rots)) = true ->
  forall m, cube8 m ->
    exists! t, in_friedel_images rots m t /\ in_ref i (mat_vec R t) = true.
Proof.
  unfold asu_check.
  destruct (prepare_all R rots) as [ps|] eqn:Eps; [|discriminate].
  destruct (prepare_all_sound R rots ps Eps) as [<- Hps].
  intros Hall m Hm.
  assert (Half : forall m', cube8 m' -> in_half m' = true ->
            exists! t, in_friedel_images (map fst ps) m' t /\ in_ref i (mat_vec R t) = true).
  { intros m' Hc Hh. apply (check_point_sound i R ps Hps).
    apply (proj1 (forallb_forall _ _) Hall).
    apply filter_In. split; [apply in_cube; exact Hc|exact Hh]. }
  destruct (in_half m) eqn:Hh; [apply Half; assumption|].
  destruct (Half (neg_hkl m) (cube8_neg m Hm) (in_half_neg m Hh)) as (t & [Ht1 Ht2] & U).
  exists t. split.
  - split; [apply in_friedel_images_neg; exact Ht1|exact Ht2].
  - intros t' [Ht1' Ht2']. apply U. split; [|exact Ht2'].
    apply in_friedel_images_neg. exact Ht1'.
Qed.

Lemma rots_eqb_eq (a b : list Rot) : rots_eqb a b = true -> a = b.
Proof.
  revert b. induction a as [|x a IH]; intros [|y b]; cbn; try discriminate; [reflexivity|].
  intros H. apply andb_true_iff in H. destruct H as [H1 H2].
  apply rot_eqb_eq in H1. apply IH in H2. congruence.
Qed.

Lemma key_eqb_eq (a b : option asu_key) : key_eqb a b = true -> a = b.
Proof.
  destruct a as [[[i R] rots]|], b as [[[i' R'] rots']|]; cbn; try discriminate;
    [|reflexivity].
  rewrite !andb_true_iff. intros [[H1 H2] H3].
  apply Z.eqb_eq in H1. apply rot_eqb_eq in H2. apply rots_eqb_eq in H3. congruence.
Qed.

Lemma dedup_keys_In (x : option asu_key) (l : list (option asu_key)) :
  In x l -> In x (dedup_keys l).
Proof.
  induction l as [|a l IH]; [auto|].
  intros H. cbn [dedup_keys].
  destruct (key_eqb a x) eqn:E.
  - left. apply key_eqb_eq. exact E.
  - right. apply filter_In. split; [|rewrite E; reflexivity].
    destruct H as [->|H]; [|apply IH; exact H].
    destruct x as [[[i R] rots]|]; cbn in E;
      [rewrite Z.eqb_refl, rot_eqb_refl in E; cbn in E|discriminate].
    exfalso. clear -E. induction rots as [|r rots IH]; cbn in E; [discriminate|].
    rewrite rot_eqb_refl in E. auto.
Qed.

Lemma asu_table : forallb asu_check checked_keys = true.
Proof. vm_compute. reflexivity. Qed.

Lemma in_all_ops_rot (g : GroupOps) (r : Rot) :
  cen_ops g <> [] ->
  (exists op, In op (all_ops g) /\ rot op = r) <-> In r (map rot (sym_ops g)).
Proof.
  intros Hc. unfold all_ops. split.
  - intros (op & Hop & <-). apply in_flat_map in Hop. destruct Hop as (c & _ & Hop).
    apply in_map_iff in Hop. destruct Hop as (s & <- & Hs).
    apply in_map_iff. exists s. split; [reflexivity|exact Hs].
  - intros Hr. apply in_map_iff in Hr. destruct Hr as (s & <- & Hs).
    destruct (cen_ops g) as [|c cs]; [contradiction|].
    exists (wrap (translated s c)). split; [|reflexivity].
    apply in_flat_map. exists c. split; [left; reflexivity|].
    apply (in_map (fun s' => wrap (translated s' c))). exact Hs.
Qed.

Lemma in_friedel_orbit_images (g : GroupOps) (m t : Miller) :
  cen_ops g <> [] ->
  in_friedel_orbit g m t <-> in_friedel_images (map rot (sym_ops g)) m t.
Proof.
  intros Hc. unfold in_friedel_orbit, in_friedel_images, apply_to_hkl. split.
  - intros (op & Hop & H). exists (rot op). split; [|exact H].
    apply (in_all_ops_rot g (rot op) Hc). exists op. auto.
  - intros (r & Hr & H). apply (in_all_ops_rot g r Hc) in Hr.
    destruct Hr as (op & Hop & <-). exists op. auto.
Qed.

Lemma in_asu_in_ref (ch : HklAsuChecker) (t : Miller) :
  in_asu ch t <-> in_ref (idx ch) (mat_vec (asu_rot ch) t) = true.
Proof.
  unfold in_asu, in_ref, is_in.
  change (is_in_reference_setting (mkChecker (idx ch) (rot identity)))
    with (is_in_reference_setting ch).
  unfold mat_vec, build3. cbn [at0 at1 at2 nth3].
  destruct (is_in_reference_setting ch _ _ _) as [b| | |];
    split; intros H; try discriminate; congruence.
Qed.

(** C1, as amended.  For every entry of the table other than the settings
    on rhombohedral axes (extension R) and every triple of Miller indices
    in the cube [-8, 8]^3, exactly one triple among the members of the
    orbit and their Friedel mates is in the asymmetric unit of the
    [HklAsuChecker] of the entry. *)
Theorem asu_partition (sg : SpaceGroup) :
  In sg Tables_.main ->
  rhombohedral_axes sg = false ->
  exists g ch,
    operations sg = Ok g /\ make_checker sg = Ok ch
    /\ forall m, cube8 m -> exists! t, in_friedel_orbit g m t /\ in_asu ch t.
Proof.
  intros Hsg HR.
  assert (Hk : In (key_of sg) checked_keys).
  { apply dedup_keys_In, in_map, filter_In. rewrite HR. auto. }
  pose proof (proj1 (forallb_forall _ _) asu_table _ Hk) as Hc.
  unfold key_of in Hc.
  destruct (operations sg) as [g| | |]; try discriminate.
  destruct (make_checker sg) as [ch| | |]; try discriminate.
  destruct (cen_ops g) as [|c cs] eqn:Ec; [discriminate|].
  exists g, ch. split; [reflexivity|]. split; [reflexivity|].
  intros m Hm.
  destruct (asu_check_sound _ _ _ Hc m Hm) as (t & [H1 H2] & U).
  assert (Hne : cen_ops g <> []) by (rewrite Ec; discriminate).
  exists t. split.
  - split; [apply in_friedel_orbit_images; assumption|apply in_asu_in_ref; exact H2].
  - intros t' [H1' H2']. apply U. split.
    + apply in_friedel_orbit_images in H1'; assumption.
    + apply in_asu_in_ref. exact H2'.
Qed.

Lemma asu_partition_witness :
  let sg := mkSG 2 2 "P -1" NUL "" "-P 1" 0 in
  In sg Tables_.main
  /\ rhombohedral_axes sg = false
  /\ exists g ch,
       operations sg = Ok g /\ make_checker sg = Ok ch
       /\ forall m, cube8 m -> exists! t, in_friedel_orbit g m t /\ in_asu ch t.
Proof.
  intro sg.
  assert (H : In sg Tables_.main) by (right; left; reflexivity).
  split; [exact H|]. split; [reflexivity|].
  apply (asu_partition sg H). reflexivity.
Defined.

(** C1, the claim as stated, fails: the patterns select one triple of each
    Friedel pair, so for the group "P 1", whose only operation is the
    identity, the orbit of (-1, 0, 0) has no member in the asymmetric unit. *)
Lemma asu_orbit_without_member :
  exists sg g ch,
    nth_error Tables_.main 0 = Some sg
    /\ operations sg = Ok g /\ make_checker sg = Ok ch
    /\ cube8 (mk3 (-1) 0 0)
    /\ ~ exists t, in_orbit g (mk3 (-1) 0 0) t /\ in_asu ch t.
Proof.
  do 3 eexists.
  split; [reflexivity|].
  split; [vm_compute; reflexivity|].
  split; [vm_compute; reflexivity|].
  split; [unfold cube8; cbn; lia|].
  intros (t & (op & Hop & ->) & Hin).
  destruct Hop as [<-|[]].
  vm_compute in Hin. discriminate.
Qed.

(** The settings on rhombohedral axes are seven entries of the table; for
    the first of them, "R 3" with extension R, two different members of the
    Friedel-closed orbit of (1, 0, 0) are in the asymmetric unit. *)
Lemma asu_rhombohedral_axes :
  List.length (filter rhombohedral_axes Tables_.main) = 7%nat
  /\ exists sg g ch,
       nth_error Tables_.main 433 = Some sg
       /\ hm sg = "R 3" /\ ext sg = "R"%char
       /\ operations sg = Ok g /\ make_checker sg = Ok ch
       /\ in_friedel_orbit g (mk3 1 0 0) (mk3 0 1 0) /\ in_asu ch (mk3 0 1 0)
       /\ in_friedel_orbit g (mk3 1 0 0) (mk3 (-1) 0 0) /\ in_asu ch (mk3 (-1) 0 0).
Proof.
  split; [vm_compute; reflexivity|].
  do 3 eexists.
  split; [reflexivity|].
  split; [reflexivity|]. split; [reflexivity|].
  split; [vm_compute; reflexivity|].
  split; [vm_compute; reflexivity|].
  split; [|split; [vm_compute; reflexivity|split; [|vm_compute; reflexivity]]].
  - eexists. split; [right; right; left; reflexivity|]. left. vm_compute. reflexivity.
  - eexists. split; [left; reflexivity|]. right. vm_compute. reflexivity.
Qed.
